(** * go-vban: the VBAN header and packet codec, and the UDP endpoint

    A shallow embedding of the Go package [vban] (files [constants.go]
    and [vban.go]) together with the properties of its specification.

    Conventions of the embedding:
    - a [uint8] or [uint32] is a [Z] in the range of its type; a
      conversion or an arithmetic operation of the source that wraps
      around is written with [uint8] / [uint32] (reduction modulo
      2^8 / 2^32);
    - a [[]byte] that is only read is the [list Z] of its bytes; where
      sharing matters (the packet payload) it is a [slice] into a [heap]
      of backing arrays;
    - a Go [string] is a [string] (a sequence of 8-bit characters);
    - a pointer receiver that is mutated is passed in and returned;
    - a Go result [(v, err)] is a pair of options, [None] standing for
      [nil]. *)

From Stdlib Require Import ZArith Lia List String Ascii Bool.
From stdpp Require Import base option list gmap strings.

Local Open Scope Z_scope.

(** ** Machine integers *)

Definition uint8 (x : Z) : Z := x mod 256.
Definition uint32 (x : Z) : Z := x mod 2 ^ 32.

Definition is_uint8 (x : Z) : Prop := 0 <= x < 256.
Definition is_uint32 (x : Z) : Prop := 0 <= x < 2 ^ 32.

(** ** Errors

    The source builds its errors with [errors.New] and [fmt.Errorf]; one
    constructor stands for each message, with the values the message
    prints and, for [%w], the wrapped cause. *)

Inductive error : Type :=
  | io_EOF
  | io_ErrUnexpectedEOF
  (* vban.go, packet framing *)
  | ErrDataSize (got max : Z)
  | ErrMarshalPacketHeader (cause : error)
  | ErrInsufficientPacket (got need : Z)
  | ErrPacketSize (got max : Z)
  | ErrUnmarshalHeader (cause : error)
  (* vban.go, header *)
  | ErrSamplesRange
  | ErrChannelsRange
  | ErrInternalSize (got expected : Z)
  | ErrInsufficientHeader (expected got : Z)
  | ErrReadField (field : string) (cause : error)
  | ErrInvalidMagic (expected got : Z)
  (* vban.go, connection *)
  | ErrConnClosed
  | ErrNilPacket
  | ErrMarshalForSend (cause : error)
  | ErrNoDestination
  | ErrUDPWrite (cause : error)
  | ErrIncompleteWrite (wrote expected : Z)
  | ErrClosedDuringRead (cause : error)
  | ErrUDPRead (cause : error)
  | ErrEmptyDatagram
  | ErrOversized (got max : Z)
  | ErrUnmarshalReceived (cause : error)
  (* an error of the operating system's socket layer *)
  | ErrNet (closed : bool) (code : Z).

(** ** constants.go *)

Definition HeaderMagic : Z := 0x4E414256.

Definition MaxStreamNameLen : Z := 16.
Definition HeaderSize : Z := 28.
Definition MaxPacketDataSize : Z := 1436.
Definition MaxVBANPacketSize : Z := HeaderSize + MaxPacketDataSize.
Definition DefaultPort : Z := 6980.

Definition ProtocolAudio : Z := 0x00.
Definition ProtocolSerial : Z := 0x20.
Definition ProtocolText : Z := 0x40.
Definition ProtocolService : Z := 0x60.
Definition ProtocolMask : Z := 0xE0.

Definition IsAudio (sp : Z) : bool := Z.land sp ProtocolMask =? ProtocolAudio.
Definition IsSerial (sp : Z) : bool := Z.land sp ProtocolMask =? ProtocolSerial.
Definition IsText (sp : Z) : bool := Z.land sp ProtocolMask =? ProtocolText.
Definition IsService (sp : Z) : bool := Z.land sp ProtocolMask =? ProtocolService.

Definition SRMask : Z := 0x1F.

Definition SRList : gmap Z Z :=
  list_to_map
    [ (0, 6000); (1, 12000); (2, 24000); (3, 48000); (4, 96000);
      (5, 192000); (6, 384000);
      (7, 8000); (8, 16000); (9, 32000); (10, 64000); (11, 128000);
      (12, 256000); (13, 512000);
      (14, 11025); (15, 22050); (16, 44100); (17, 88200); (18, 176400);
      (19, 352800); (20, 705600) ].

Definition BPSList : gmap Z Z :=
  list_to_map
    [ (0, 0); (1, 110); (2, 150); (3, 300); (4, 600); (5, 1200);
      (6, 2400); (7, 4800); (8, 9600); (9, 14400);
      (10, 19200); (11, 31250); (12, 38400); (13, 57600); (14, 115200);
      (15, 128000); (16, 230400);
      (17, 250000); (18, 256000); (19, 460800); (20, 921600);
      (21, 1000000); (22, 1500000);
      (23, 2000000); (24, 3000000) ].

(** [rate, ok := m[index]; if ok { return rate }] falls through to the
    final [return 0] when the key is absent. *)
Definition GetRate (sri sp : Z) : Z :=
  let index := Z.land sri SRMask in
  if IsAudio sp then
    match SRList !! index with
    | Some rate => rate
    | None => 0
    end
  else if IsSerial sp || IsText sp then
    match BPSList !! index with
    | Some rate => rate
    | None => 0
    end
  else 0.

Definition DataTypeUINT8 : Z := 0x00.
Definition DataTypeINT16 : Z := 0x01.
Definition DataTypeINT24 : Z := 0x02.
Definition DataTypeINT32 : Z := 0x03.
Definition DataTypeFLOAT32 : Z := 0x04.
Definition DataTypeFLOAT64 : Z := 0x05.
Definition DataType12BIT : Z := 0x06.
Definition DataType10BIT : Z := 0x07.
Definition DataTypeMask : Z := 0x07.

Definition DataType_Size (dt : Z) : Z :=
  let t := Z.land dt DataTypeMask in
  if t =? DataTypeUINT8 then 1
  else if t =? DataTypeINT16 then 2
  else if (t =? DataTypeINT32) || (t =? DataTypeFLOAT32) then 4
  else if t =? DataTypeFLOAT64 then 8
  else 0.

Definition CodecMask : Z := 0xF0.

(** [GetType] ignores the sub-protocol. *)
Definition CodecType_GetType (ct sp : Z) : Z := Z.land ct CodecMask.

(** ** encoding/binary and bytes.Reader, as far as the codec uses them *)

Module Binary.

(** [binary.LittleEndian.PutUint32] *)
Definition PutUint32 (v : Z) : list Z :=
  [ uint8 v; uint8 (Z.shiftr v 8); uint8 (Z.shiftr v 16);
    uint8 (Z.shiftr v 24) ].

(** [binary.LittleEndian.Uint32]; bytes that are missing read as 0 here,
    the callers below only pass four bytes. *)
Definition Uint32 (b : list Z) : Z :=
  Z.lor (Z.lor (Z.lor (nth 0 b 0) (Z.shiftl (nth 1 b 0) 8))
               (Z.shiftl (nth 2 b 0) 16))
        (Z.shiftl (nth 3 b 0) 24).

(** A [bytes.Reader] is the list of the bytes not read yet. *)
Definition Reader : Type := list Z.

(** [io.ReadFull] on a [bytes.Reader]: nothing left is [io.EOF], too
    little left is [io.ErrUnexpectedEOF] (and the reader is drained). *)
Definition ReadFull (r : Reader) (n : nat) : Reader * (list Z * option error) :=
  match r with
  | [] => (r, ([], Some io_EOF))
  | _ =>
      if (length r <? n)%nat then ([], (r, Some io_ErrUnexpectedEOF))
      else (drop n r, (take n r, None))
  end.

(** [binary.Read(r, order, &x)] for [x] a [uint32]: the result is the
    reader, the new value of [x] and the error; [x] is written only when
    the four bytes were read. *)
Definition Read_uint32 (r : Reader) (x : Z) : Reader * (Z * option error) :=
  match ReadFull r 4 with
  | (r', (_, Some err)) => (r', (x, Some err))
  | (r', (bs, None)) => (r', (Uint32 bs, None))
  end.

(** [binary.Read(r, order, &x)] for [x] a [uint8]. *)
Definition Read_uint8 (r : Reader) (x : Z) : Reader * (Z * option error) :=
  match ReadFull r 1 with
  | (r', (_, Some err)) => (r', (x, Some err))
  | (r', (bs, None)) => (r', (nth 0 bs 0, None))
  end.

(** The method [Read(b)] of a [bytes.Reader]: [io.EOF] at the end, otherwise
    [copy(b, rest)], which may fill only a prefix of [b]. The result is
    the reader, the new contents of [b], the count and the error. *)
Definition Read (r : Reader) (b : list Z) : Reader * (list Z * (nat * option error)) :=
  match r with
  | [] => (r, (b, (0%nat, Some io_EOF)))
  | _ =>
      let n := Nat.min (length b) (length r) in
      (drop n r, (take n r ++ drop n b, (n, None)))
  end.

End Binary.

(** ** vban.go: the header *)

Record Header : Type := mkHeader {
  VBAN : Z;                (* uint32 *)
  FormatSR : Z;            (* uint8 *)
  FormatNbs : Z;           (* uint8 *)
  FormatNbc : Z;           (* uint8 *)
  FormatBit : Z;           (* uint8 *)
  StreamName : list Z;     (* [MaxStreamNameLen]byte *)
  NuFrame : Z              (* uint32 *)
}.

(** The invariant the Go types give a [Header]. *)
Record wf_Header (h : Header) : Prop := mk_wf_Header {
  wf_VBAN : is_uint32 (VBAN h);
  wf_FormatSR : is_uint8 (FormatSR h);
  wf_FormatNbs : is_uint8 (FormatNbs h);
  wf_FormatNbc : is_uint8 (FormatNbc h);
  wf_FormatBit : is_uint8 (FormatBit h);
  wf_StreamName_len : length (StreamName h) = Z.to_nat MaxStreamNameLen;
  wf_StreamName_bytes : Forall is_uint8 (StreamName h);
  wf_NuFrame : is_uint32 (NuFrame h)
}.

(** The zero value [Header{}]. *)
Definition Header_zero : Header :=
  mkHeader 0 0 0 0 0 (replicate (Z.to_nat MaxStreamNameLen) 0) 0.

Definition set_VBAN (h : Header) (v : Z) : Header :=
  mkHeader v (FormatSR h) (FormatNbs h) (FormatNbc h) (FormatBit h)
           (StreamName h) (NuFrame h).
Definition set_FormatSR (h : Header) (v : Z) : Header :=
  mkHeader (VBAN h) v (FormatNbs h) (FormatNbc h) (FormatBit h)
           (StreamName h) (NuFrame h).
Definition set_FormatNbs (h : Header) (v : Z) : Header :=
  mkHeader (VBAN h) (FormatSR h) v (FormatNbc h) (FormatBit h)
           (StreamName h) (NuFrame h).
Definition set_FormatNbc (h : Header) (v : Z) : Header :=
  mkHeader (VBAN h) (FormatSR h) (FormatNbs h) v (FormatBit h)
           (StreamName h) (NuFrame h).
Definition set_FormatBit (h : Header) (v : Z) : Header :=
  mkHeader (VBAN h) (FormatSR h) (FormatNbs h) (FormatNbc h) v
           (StreamName h) (NuFrame h).
Definition set_StreamName (h : Header) (v : list Z) : Header :=
  mkHeader (VBAN h) (FormatSR h) (FormatNbs h) (FormatNbc h) (FormatBit h)
           v (NuFrame h).
Definition set_NuFrame (h : Header) (v : Z) : Header :=
  mkHeader (VBAN h) (FormatSR h) (FormatNbs h) (FormatNbc h) (FormatBit h)
           (StreamName h) v.

(** The bytes of a Go string, and the string of a byte sequence. *)
Definition bytes_of_string (s : string) : list Z :=
  map (fun c => Z.of_N (N_of_ascii c)) (list_ascii_of_string s).
Definition string_of_bytes (b : list Z) : string :=
  string_of_list_ascii (map (fun x => ascii_of_N (Z.to_N x)) b).

(** The builtin [copy(dst, src)]: the new contents of [dst] and the
    number of bytes copied. *)
Definition copy (dst src : list Z) : list Z * nat :=
  let n := Nat.min (length dst) (length src) in
  (take n src ++ drop n dst, n).

(** [bytes.IndexByte] *)
Fixpoint IndexByte (b : list Z) (c : Z) : Z :=
  match b with
  | [] => -1
  | x :: b' =>
      if x =? c then 0
      else let r := IndexByte b' c in if r =? -1 then -1 else r + 1
  end.

Definition SubProtocol (h : Header) : Z := Z.land (FormatSR h) ProtocolMask.
Definition SRIndex (h : Header) : Z := Z.land (FormatSR h) SRMask.
Definition DataType (h : Header) : Z := Z.land (FormatBit h) DataTypeMask.
Definition CodecType (h : Header) : Z := Z.land (FormatBit h) CodecMask.

Definition GetStreamName (h : Header) : string :=
  let n := IndexByte (StreamName h) 0 in
  let n := if n =? -1 then MaxStreamNameLen else n in
  string_of_bytes (take (Z.to_nat n) (StreamName h)).

(** The loop [for i := l; i < MaxStreamNameLen; i++ { h.StreamName[i] = 0 }]
    runs over the indices [l, l+1, ..., MaxStreamNameLen-1]. *)
Definition SetStreamName (h : Header) (name : string) : Header :=
  let '(arr, l) := copy (StreamName h) (bytes_of_string name) in
  let arr :=
    foldl (fun a i => <[i:=0]> a) arr
          (seq l (Z.to_nat MaxStreamNameLen - l)) in
  set_StreamName h arr.

(** In [Header{VBAN: HeaderMagic, FormatSR: uint8(subProto)}] the
    conversion is between two 8-bit types and changes nothing. *)
Definition NewHeader (subProto : Z) (streamName : string) : Header :=
  let h := mkHeader HeaderMagic subProto 0 0 0
                    (replicate (Z.to_nat MaxStreamNameLen) 0) 0 in
  SetStreamName h streamName.

(** The accessors return a [uint8]: the addition wraps around. *)
Definition SamplesPerFrame (h : Header) : Z := uint8 (FormatNbs h + 1).

Definition SetSamplesPerFrame (h : Header) (nbSamples : Z) : Header * option error :=
  if nbSamples =? 0 then (h, Some ErrSamplesRange)
  else (set_FormatNbs h (uint8 (nbSamples - 1)), None).

Definition Channels (h : Header) : Z := uint8 (FormatNbc h + 1).

Definition SetChannels (h : Header) (nbChannels : Z) : Header * option error :=
  if nbChannels =? 0 then (h, Some ErrChannelsRange)
  else (set_FormatNbc h (uint8 (nbChannels - 1)), None).

Definition SetAudioFormat (h : Header) (srIndex dataType codec : Z) : Header :=
  let h := set_FormatSR h (Z.lor (Z.land ProtocolAudio ProtocolMask)
                                 (Z.land srIndex SRMask)) in
  let h := set_FormatBit h (Z.lor (Z.land codec CodecMask)
                                  (Z.land dataType DataTypeMask)) in
  set_FormatBit h (Z.ldiff (FormatBit h) 0x08).

(** [Header.MarshalBinary]. Writing to a [bytes.Buffer] cannot fail, so
    the [err != nil] branches after each write are never taken; the buffer
    is the list of the bytes written so far. A [nil] byte slice is the
    empty list. *)
Definition Header_MarshalBinary (h : Header) : list Z * option error :=
  let buf : list Z := [] in
  let buf := buf ++ Binary.PutUint32 (VBAN h) in
  let buf := buf ++ [FormatSR h] in
  let buf := buf ++ [FormatNbs h] in
  let buf := buf ++ [FormatNbc h] in
  let buf := buf ++ [FormatBit h] in
  let buf := buf ++ StreamName h in
  let buf := buf ++ Binary.PutUint32 (NuFrame h) in
  if negb (Z.of_nat (length buf) =? HeaderSize)
  then ([], Some (ErrInternalSize (Z.of_nat (length buf)) HeaderSize))
  else (buf, None).

(** [Header.UnmarshalBinary]: every read goes straight into a field of
    the receiver, so the header returned with an error is the receiver as
    the failing step left it. *)
Definition Header_UnmarshalBinary (h : Header) (data : list Z) : Header * option error :=
  if Z.of_nat (length data) <? HeaderSize
  then (h, Some (ErrInsufficientHeader HeaderSize (Z.of_nat (length data))))
  else
    let buf : Binary.Reader := take (Z.to_nat HeaderSize) data in
    let '(buf, (v, err)) := Binary.Read_uint32 buf (VBAN h) in
    let h := set_VBAN h v in
    match err with Some err => (h, Some (ErrReadField "VBAN magic" err)) | None =>
    if negb (VBAN h =? HeaderMagic)
    then (h, Some (ErrInvalidMagic HeaderMagic (VBAN h)))
    else
    let '(buf, (v, err)) := Binary.Read_uint8 buf (FormatSR h) in
    let h := set_FormatSR h v in
    match err with Some err => (h, Some (ErrReadField "FormatSR" err)) | None =>
    let '(buf, (v, err)) := Binary.Read_uint8 buf (FormatNbs h) in
    let h := set_FormatNbs h v in
    match err with Some err => (h, Some (ErrReadField "FormatNbs" err)) | None =>
    let '(buf, (v, err)) := Binary.Read_uint8 buf (FormatNbc h) in
    let h := set_FormatNbc h v in
    match err with Some err => (h, Some (ErrReadField "FormatNbc" err)) | None =>
    let '(buf, (v, err)) := Binary.Read_uint8 buf (FormatBit h) in
    let h := set_FormatBit h v in
    match err with Some err => (h, Some (ErrReadField "FormatBit" err)) | None =>
    let '(buf, (arr, (_, err))) := Binary.Read buf (StreamName h) in
    let h := set_StreamName h arr in
    match err with Some err => (h, Some (ErrReadField "StreamName" err)) | None =>
    let '(buf, (v, err)) := Binary.Read_uint32 buf (NuFrame h) in
    let h := set_NuFrame h v in
    match err with Some err => (h, Some (ErrReadField "NuFrame" err)) | None =>
    (h, None)
    end end end end end end end.

(** ** Byte slices that share backing arrays *)

Module Mem.

(** The heap is the sequence of the backing arrays allocated so far; a
    slice is a window [off, off+len) of one of them, extensible up to
    [off+cap). *)
Abbreviation heap := (list (list Z)).

Record slice : Type := mkSlice { arr : nat; off : nat; len : nat; cap : nat }.

(** The [nil] slice. *)
Definition nil_slice : slice := mkSlice 0 0 0 0.

Definition array (m : heap) (a : nat) : list Z := default [] (m !! a).

(** The bytes a slice shows. *)
Definition load (m : heap) (s : slice) : list Z :=
  take (len s) (drop (off s) (array m (arr s))).

Definition slice_ok (m : heap) (s : slice) : Prop :=
  (len s <= cap s)%nat /\ (off s + cap s <= length (array m (arr s)))%nat.

(** [make([]byte, n, c)] *)
Definition make (m : heap) (n c : nat) : heap * slice :=
  (m ++ [replicate c 0], mkSlice (length m) 0 n c).

(** [s[lo:hi]]; the callers check the bounds beforehand. *)
Definition reslice (s : slice) (lo hi : nat) : slice :=
  mkSlice (arr s) (off s + lo) (hi - lo) (cap s - lo).

(** Overwrite the bytes of array [a] from position [i] on by [bs]. *)
Definition poke (m : heap) (a i : nat) (bs : list Z) : heap :=
  let old := array m a in
  <[a := take i old ++ bs ++ drop (i + length bs) old]> m.

(** The builtin [copy(dst, src)] on slices; the source bytes are given
    by value (Go reads them as if before writing). *)
Definition copy (m : heap) (dst : slice) (src : list Z) : heap * nat :=
  let n := Nat.min (len dst) (length src) in
  (poke m (arr dst) (off dst) (take n src), n).

(** [s[i] = b], for [i] below [len s]. *)
Definition store (m : heap) (s : slice) (i : nat) (b : Z) : heap :=
  poke m (arr s) (off s + i) [b].

(** [append(s, bs...)]: in place while the capacity suffices, otherwise
    into a new array (whose capacity Go leaves open; the least one is
    taken here). *)
Definition append (m : heap) (s : slice) (bs : list Z) : heap * slice :=
  if (len s + length bs <=? cap s)%nat
  then (poke m (arr s) (off s + len s) bs,
        mkSlice (arr s) (off s) (len s + length bs) (cap s))
  else
    let n := (len s + length bs)%nat in
    (m ++ [load m s ++ bs], mkSlice (length m) 0 n n).

End Mem.

(** ** vban.go: packets *)

Record Packet : Type := mkPacket {
  Packet_Header : Header;
  Packet_Data : Mem.slice
}.

(** [NewPacket] keeps the caller's slice: no copy is made. *)
Definition NewPacket (header : Header) (data : Mem.slice) : option Packet * option error :=
  if Z.of_nat (Mem.len data) >? MaxPacketDataSize
  then (None, Some (ErrDataSize (Z.of_nat (Mem.len data)) MaxPacketDataSize))
  else
    let p := mkPacket header data in
    (Some p, None).

Definition Packet_MarshalBinary (p : Packet) (m : Mem.heap) : Mem.heap * (Mem.slice * option error) :=
  let '(headerBytes, err) := Header_MarshalBinary (Packet_Header p) in
  match err with
  | Some err => (m, (Mem.nil_slice, Some (ErrMarshalPacketHeader err)))
  | None =>
  if Z.of_nat (Mem.len (Packet_Data p)) >? MaxPacketDataSize
  then (m, (Mem.nil_slice,
            Some (ErrDataSize (Z.of_nat (Mem.len (Packet_Data p))) MaxPacketDataSize)))
  else
    let '(m, fullPacket) :=
      Mem.make m 0 (length headerBytes + Mem.len (Packet_Data p)) in
    let '(m, fullPacket) := Mem.append m fullPacket headerBytes in
    let '(m, fullPacket) := Mem.append m fullPacket (Mem.load m (Packet_Data p)) in
    (m, (fullPacket, None))
  end.

Definition UnmarshalBinary (data : Mem.slice) (m : Mem.heap) : Mem.heap * (option Packet * option error) :=
  if Z.of_nat (Mem.len data) <? HeaderSize
  then (m, (None, Some (ErrInsufficientPacket (Z.of_nat (Mem.len data)) HeaderSize)))
  else if Z.of_nat (Mem.len data) >? MaxVBANPacketSize
  then (m, (None, Some (ErrPacketSize (Z.of_nat (Mem.len data)) MaxVBANPacketSize)))
  else
    let p := mkPacket Header_zero Mem.nil_slice in
    let '(h, err) :=
      Header_UnmarshalBinary (Packet_Header p)
        (Mem.load m (Mem.reslice data 0 (Z.to_nat HeaderSize))) in
    let p := mkPacket h (Packet_Data p) in
    match err with
    | Some err => (m, (None, Some (ErrUnmarshalHeader err)))
    | None =>
        let dataPayload := Mem.reslice data (Z.to_nat HeaderSize) (Mem.len data) in
        let '(m, d) := Mem.make m (Mem.len dataPayload) (Mem.len dataPayload) in
        let p := mkPacket (Packet_Header p) d in
        let '(m, _) := Mem.copy m (Packet_Data p) (Mem.load m dataPayload) in
        (m, (Some p, None))
    end.

(** ** vban.go: the connection

    The operating system's UDP sockets are outside the program: the
    interface below gives, for every call the source makes on a
    [*net.UDPConn], its effect on the state of the network and its
    result. Nothing is assumed about them. *)

Class Net : Type := {
  UDPConn : Type;
  UDPAddr : Type;
  World : Type;
  sock_Close : UDPConn -> World -> World * option error;
  sock_WriteToUDP : UDPConn -> list Z -> UDPAddr -> World -> World * (Z * option error);
  sock_Write : UDPConn -> list Z -> World -> World * (Z * option error);
  (* the datagram read (the caller's buffer bounds how much of it is kept),
     the sender and the error *)
  sock_ReadFromUDP : UDPConn -> World -> World * (list Z * option UDPAddr * option error);
  sock_LocalAddr : UDPConn -> World -> option UDPAddr;
  sock_RemoteAddr : UDPConn -> World -> option UDPAddr
}.

(** [errors.Is(err, net.ErrClosed)] *)
Definition is_net_ErrClosed (err : error) : bool :=
  match err with
  | ErrNet closed _ => closed
  | _ => false
  end.

Section Transport.
Context `{Net}.

(** [udpConn] is [None] for the [nil] pointer. *)
Record Conn : Type := mkConn {
  udpConn : option UDPConn;
  readBuffer : Mem.slice
}.

(** What a method of [Conn] can read and change: the [Conn] itself,
    the byte arrays and the network. *)
Record state : Type := mkState {
  st_conn : Conn;
  st_mem : Mem.heap;
  st_world : World
}.

(** [NewConn] gives [nil] for a [nil] socket. *)
Definition NewConn (u : option UDPConn) (m : Mem.heap) : Mem.heap * option Conn :=
  match u with
  | None => (m, None)
  | Some _ =>
      let n := Z.to_nat (MaxVBANPacketSize + 1) in
      let '(m, buf) := Mem.make m n n in
      (m, Some (mkConn u buf))
  end.

Definition Close (s : state) : state * option error :=
  match udpConn (st_conn s) with
  | None => (s, None)
  | Some u =>
      let '(w, err) := sock_Close u (st_world s) in
      let c := mkConn None (readBuffer (st_conn s)) in
      (mkState c (st_mem s) w, err)
  end.

(** The end of [Send], after the write. *)
Definition Send_check (s : state) (packetBytes : Mem.slice)
    (r : World * (Z * option error)) : state * option error :=
  let '(w, (n, err)) := r in
  let s := mkState (st_conn s) (st_mem s) w in
  match err with
  | Some err => (s, Some (ErrUDPWrite err))
  | None =>
      if negb (n =? Z.of_nat (Mem.len packetBytes))
      then (s, Some (ErrIncompleteWrite n (Z.of_nat (Mem.len packetBytes))))
      else (s, None)
  end.

Definition Send (packet : option Packet) (addr : option UDPAddr) (s : state) : state * option error :=
  match udpConn (st_conn s) with
  | None => (s, Some ErrConnClosed)
  | Some u =>
  match packet with
  | None => (s, Some ErrNilPacket)
  | Some packet =>
      let '(m, (packetBytes, err)) := Packet_MarshalBinary packet (st_mem s) in
      let s := mkState (st_conn s) m (st_world s) in
      match err with
      | Some err => (s, Some (ErrMarshalForSend err))
      | None =>
          match addr with
          | Some addr =>
              Send_check s packetBytes
                (sock_WriteToUDP u (Mem.load m packetBytes) addr (st_world s))
          | None =>
              match sock_RemoteAddr u (st_world s) with
              | None => (s, Some ErrNoDestination)
              | Some _ =>
                  Send_check s packetBytes
                    (sock_Write u (Mem.load m packetBytes) (st_world s))
              end
          end
      end
  end
  end.

Definition Receive (s : state) : state * (option Packet * option UDPAddr * option error) :=
  match udpConn (st_conn s) with
  | None => (s, (None, None, Some ErrConnClosed))
  | Some u =>
      let '(w, (dgram, remoteAddr, err)) := sock_ReadFromUDP u (st_world s) in
      let '(m, n) := Mem.copy (st_mem s) (readBuffer (st_conn s)) dgram in
      let s := mkState (st_conn s) m w in
      match err with
      | Some err =>
          if is_net_ErrClosed err
          then (s, (None, None, Some (ErrClosedDuringRead err)))
          else (s, (None, None, Some (ErrUDPRead err)))
      | None =>
          if (n =? 0)%nat
          then (s, (None, remoteAddr, Some ErrEmptyDatagram))
          else if Z.of_nat n >? MaxVBANPacketSize
          then (s, (None, remoteAddr,
                    Some (ErrOversized (Z.of_nat n) MaxVBANPacketSize)))
          else
            let '(m, (packet, err)) :=
              UnmarshalBinary (Mem.reslice (readBuffer (st_conn s)) 0 n) m in
            let s := mkState (st_conn s) m w in
            match err with
            | Some err => (s, (None, remoteAddr, Some (ErrUnmarshalReceived err)))
            | None => (s, (packet, remoteAddr, None))
            end
      end
  end.

Definition LocalAddr (s : state) : option UDPAddr :=
  match udpConn (st_conn s) with
  | None => None
  | Some u => sock_LocalAddr u (st_world s)
  end.

Definition RemoteAddr (s : state) : option UDPAddr :=
  match udpConn (st_conn s) with
  | None => None
  | Some u => sock_RemoteAddr u (st_world s)
  end.

(** The methods of a [Conn] as the steps of a machine. *)
Inductive op : Type :=
  | OpClose
  | OpSend (packet : option Packet) (addr : option UDPAddr)
  | OpReceive
  | OpLocalAddr
  | OpRemoteAddr.

Inductive outcome : Type :=
  | OutError (err : option error)
  | OutReceive (r : option Packet * option UDPAddr * option error)
  | OutAddr (a : option UDPAddr).

Definition step (o : op) (s : state) : state * outcome :=
  match o with
  | OpClose => let '(s, err) := Close s in (s, OutError err)
  | OpSend packet addr => let '(s, err) := Send packet addr s in (s, OutError err)
  | OpReceive => let '(s, r) := Receive s in (s, OutReceive r)
  | OpLocalAddr => (s, OutAddr (LocalAddr s))
  | OpRemoteAddr => (s, OutAddr (RemoteAddr s))
  end.

Fixpoint run (os : list op) (s : state) : state * list outcome :=
  match os with
  | [] => (s, [])
  | o :: os =>
      let '(s, r) := step o s in
      let '(s, rs) := run os s in
      (s, r :: rs)
  end.

(** What a call on a closed endpoint answers. *)
Definition closed_outcome (o : op) : outcome :=
  match o with
  | OpClose => OutError None
  | OpSend _ _ => OutError (Some ErrConnClosed)
  | OpReceive => OutReceive (None, None, Some ErrConnClosed)
  | OpLocalAddr | OpRemoteAddr => OutAddr None
  end.

Definition is_closed (s : state) : Prop := udpConn (st_conn s) = None.

End Transport.

(** ** Sample values

    A header as an audio sender builds it (48 kHz, 16-bit PCM, 2 channels,
    64 samples, stream "Stream1", frame 7), a heap with one array, and a
    packet whose payload is a window of that array. *)

Definition sample_header : Header :=
  mkHeader HeaderMagic 3 63 1 1
           [83; 116; 114; 101; 97; 109; 49; 0; 0; 0; 0; 0; 0; 0; 0; 0] 7.

Definition sample_heap : Mem.heap := [[10; 20; 30; 40; 50; 60]].

Definition sample_packet : Packet :=
  mkPacket sample_header (Mem.mkSlice 0 1 4 5).

(** A name with a zero byte in the middle: the Go string "a\x00b". *)
Definition name_with_zero : string :=
  String "a" (String Ascii.zero (String "b" EmptyString)).

(** A socket layer for trying the endpoint out: the network is the queue
    of the datagrams in flight, a write appends one and a read takes the
    first; every address is the default port. *)
Definition loopback : Net := {|
  UDPConn := unit;
  UDPAddr := Z;
  World := list (list Z);
  sock_Close := fun _ w => (w, None);
  sock_WriteToUDP := fun _ bs _ w => (w ++ [bs], (Z.of_nat (length bs), None));
  sock_Write := fun _ bs w => (w ++ [bs], (Z.of_nat (length bs), None));
  sock_ReadFromUDP := fun _ w =>
    match w with
    | [] => (w, ([], None, Some (ErrNet true 0)))
    | d :: w' => (w', (d, Some DefaultPort, None))
    end;
  sock_LocalAddr := fun _ _ => Some DefaultPort;
  sock_RemoteAddr := fun _ _ => Some DefaultPort
|}.

(** An open endpoint on that layer, as [NewConn] makes it. *)
Definition sample_state : @state loopback :=
  match @NewConn loopback (Some tt) sample_heap with
  | (m, Some c) => @mkState loopback c m []
  | (m, None) => @mkState loopback (@mkConn loopback None Mem.nil_slice) m []
  end.

(** The same endpoint with the datagrams [w] in flight. *)
Definition sample_state_with (w : list (list Z)) : @state loopback :=
  @mkState loopback (@st_conn loopback sample_state)
           (@st_mem loopback sample_state) w.

(** ** The example sender (main.go), as far as it uses the package *)

Inductive tool_error : Type :=
  | ErrUnsupportedRate (rate : Z).

(** [findSRIndex] ranges over the map [vban.SRList]; Go visits the entries
    of a map in an unspecified order, so the loop is given the entries in
    the order of the visit. *)
Fixpoint findSRIndex_over (entries : list (Z * Z)) (rate : Z) : Z * option tool_error :=
  match entries with
  | [] => (0, Some (ErrUnsupportedRate rate))
  | (index, sr) :: entries =>
      if sr =? rate then (Z.land index SRMask, None)
      else findSRIndex_over entries rate
  end.

(** The orders in which a [range] may visit a map. *)
Definition visit_of (m : gmap Z Z) (entries : list (Z * Z)) : Prop :=
  entries ≡ₚ map_to_list m.

(** ** Notions used to state the properties *)

(** The bytes of a zero-terminated name: those before the first zero. *)
Fixpoint until_zero (b : list Z) : list Z :=
  match b with
  | [] => []
  | x :: b' => if x =? 0 then [] else x :: until_zero b'
  end.

(** [m'] has the arrays of [m], unchanged except possibly the one at
    [b], and maybe more. *)
Definition heap_kept (b : option nat) (m m' : Mem.heap) : Prop :=
  (length m <= length m')%nat /\
  forall a : nat,
    (a < length m)%nat -> b <> Some a -> Mem.array m' a = Mem.array m a.

Section EndpointNotions.
Context `{Net}.

(** The read buffer of an endpoint as the constructors make it: a slice
    of [MaxVBANPacketSize+1] bytes, within an array of the heap. *)
Definition buffer_ok (s : state) : Prop :=
  Mem.slice_ok (st_mem s) (readBuffer (st_conn s)) /\
  Mem.len (readBuffer (st_conn s)) = 1465%nat /\
  (Mem.arr (readBuffer (st_conn s)) < length (st_mem s))%nat.

End EndpointNotions.

(** * Properties *)

(** ** Little-endian words and the reader *)

Module BinaryFacts.
Import Binary.

Lemma testbit_uint8 (x i : Z) :
  Z.testbit (uint8 x) i = (i <? 8) && Z.testbit x i.
Proof.
  unfold uint8. change 256 with (2 ^ 8). apply Z.testbit_mod_pow2. lia.
Qed.

Lemma testbit_uint32_high (v i : Z) :
  is_uint32 v -> 32 <= i -> Z.testbit v i = false.
Proof.
  intros Hv Hi. rewrite <- (Z.mod_small v (2 ^ 32)) by exact Hv.
  apply Z.mod_pow2_bits_high. lia.
Qed.

Lemma testbit_byte_of_word (v k i : Z) :
  0 <= k ->
  Z.testbit (uint8 (Z.shiftr v k)) (i - k)
  = (k <=? i) && (i <? k + 8) && Z.testbit v i.
Proof.
  intros Hk. rewrite testbit_uint8.
  destruct (Z.leb_spec k i) as [Hle|Hlt].
  - rewrite Z.shiftr_spec by lia. replace (i - k + k) with i by lia.
    cbn [andb]. f_equal.
    destruct (Z.ltb_spec (i - k) 8), (Z.ltb_spec i (k + 8)); auto; lia.
  - rewrite (Z.testbit_neg_r _ (i - k)) by lia. now rewrite andb_false_r.
Qed.

(** Decoding what [PutUint32] wrote gives the word back. *)
Lemma Uint32_PutUint32 (v : Z) : is_uint32 v -> Uint32 (PutUint32 v) = v.
Proof.
  intros Hv. unfold Uint32, PutUint32. cbn [nth].
  apply Z.bits_inj'. intros i Hi.
  rewrite !Z.lor_spec. do 3 rewrite Z.shiftl_spec by lia.
  rewrite !testbit_byte_of_word by lia.
  rewrite testbit_uint8.
  destruct (Z.testbit v i) eqn:Hb.
  - assert (i < 32) as Hlt.
    { destruct (Z.lt_ge_cases i 32) as [|Hge]; [assumption|].
      rewrite (testbit_uint32_high v i Hv Hge) in Hb. discriminate. }
    rewrite !andb_true_r.
    destruct (Z.ltb_spec i 8), (Z.leb_spec 8 i), (Z.ltb_spec i (8 + 8)),
      (Z.leb_spec 16 i), (Z.ltb_spec i (16 + 8)), (Z.leb_spec 24 i),
      (Z.ltb_spec i (24 + 8)); cbn; auto; lia.
  - now rewrite !andb_false_r.
Qed.

Lemma length_PutUint32 (v : Z) : length (PutUint32 v) = 4%nat.
Proof. reflexivity. Qed.

Lemma ReadFull_ok (r : Reader) (n : nat) :
  (0 < n <= length r)%nat -> ReadFull r n = (drop n r, (take n r, None)).
Proof.
  intros Hn. unfold ReadFull. destruct r as [|x r']; [cbn in Hn; lia|].
  destruct (Nat.ltb_spec (length (x :: r')) n); [lia | reflexivity].
Qed.

Lemma Read_uint32_ok (r : Reader) (x : Z) :
  (4 <= length r)%nat ->
  Read_uint32 r x = (drop 4 r, (Uint32 (take 4 r), None)).
Proof. intros Hr. unfold Read_uint32. now rewrite ReadFull_ok by lia. Qed.

Lemma Read_uint8_ok (r : Reader) (x : Z) :
  (1 <= length r)%nat ->
  Read_uint8 r x = (drop 1 r, (nth 0 r 0, None)).
Proof.
  intros Hr. unfold Read_uint8. rewrite ReadFull_ok by lia.
  destruct r; [cbn in Hr; lia | reflexivity].
Qed.

Lemma Read_ok (r : Reader) (b : list Z) :
  (0 < length b <= length r)%nat ->
  Read r b = (drop (length b) r, (take (length b) r, (length b, None))).
Proof.
  intros Hb. unfold Read. destruct r as [|x r']; [cbn in Hb; lia|].
  rewrite Nat.min_l by lia. now rewrite drop_all, app_nil_r.
Qed.

End BinaryFacts.

(** ** The header codec *)

Ltac header_fields :=
  cbn [set_VBAN set_FormatSR set_FormatNbs set_FormatNbc set_FormatBit
       set_StreamName set_NuFrame
       VBAN FormatSR FormatNbs FormatNbc FormatBit StreamName NuFrame] in *.

Section HeaderFacts.
Import Binary BinaryFacts.

Lemma Header_UnmarshalBinary_short (h : Header) (data : list Z) :
  (length data < 28)%nat ->
  Header_UnmarshalBinary h data
  = (h, Some (ErrInsufficientHeader HeaderSize (Z.of_nat (length data)))).
Proof.
  intros Hlen. unfold Header_UnmarshalBinary, HeaderSize.
  now rewrite (proj2 (Z.ltb_lt _ _)) by lia.
Qed.

Lemma Header_UnmarshalBinary_bad_magic (h : Header) (data : list Z) :
  (28 <= length data)%nat ->
  Uint32 (take 4 data) <> HeaderMagic ->
  Header_UnmarshalBinary h data
  = (set_VBAN h (Uint32 (take 4 data)),
     Some (ErrInvalidMagic HeaderMagic (Uint32 (take 4 data)))).
Proof.
  intros Hlen Hmagic. unfold Header_UnmarshalBinary, HeaderSize.
  rewrite (proj2 (Z.ltb_ge _ _)) by lia.
  change (Z.to_nat 28) with 28%nat.
  rewrite Read_uint32_ok by (rewrite length_take; lia).
  rewrite take_take. change (4 `min` 28)%nat with 4%nat.
  header_fields.
  now rewrite (proj2 (Z.eqb_neq _ _) Hmagic).
Qed.

Lemma Header_UnmarshalBinary_good_magic (h : Header) (data : list Z) :
  (28 <= length data)%nat ->
  Uint32 (take 4 data) = HeaderMagic ->
  length (StreamName h) = 16%nat ->
  Header_UnmarshalBinary h data
  = (mkHeader HeaderMagic (nth 4 data 0) (nth 5 data 0) (nth 6 data 0)
              (nth 7 data 0) (take 16 (drop 8 data))
              (Uint32 (take 4 (drop 24 data))),
     None).
Proof.
  intros Hlen Hmagic Hname. unfold Header_UnmarshalBinary, HeaderSize.
  rewrite (proj2 (Z.ltb_ge _ _)) by lia.
  change (Z.to_nat 28) with 28%nat.
  assert (length (take 28 data) = 28%nat) as Hbuf by (rewrite length_take; lia).
  rewrite Read_uint32_ok by lia.
  rewrite take_take. change (4 `min` 28)%nat with 4%nat.
  header_fields. rewrite Hmagic, Z.eqb_refl. cbn [negb].
  do 4 (rewrite Read_uint8_ok by (rewrite !length_drop; lia); header_fields).
  rewrite Read_ok by (rewrite Hname, !length_drop; lia). header_fields.
  rewrite Read_uint32_ok by (rewrite Hname, !length_drop; lia). header_fields.
  rewrite Hname, !drop_drop. cbn [Nat.add].
  rewrite !nth_skipn, !nth_firstn. cbn [Nat.add Nat.ltb Nat.leb].
  rewrite !skipn_firstn_comm, !take_take. cbn [Nat.sub Nat.min].
  reflexivity.
Qed.

End HeaderFacts.

(** ** Slices and arrays *)

Module MemFacts.
Import Mem.

Lemma array_app_old (m : heap) (a : list Z) (i : nat) :
  (i < length m)%nat -> array (m ++ [a]) i = array m i.
Proof. intros Hi. unfold array. now rewrite lookup_app_l. Qed.

Lemma array_app_new (m : heap) (a : list Z) : array (m ++ [a]) (length m) = a.
Proof. unfold array. now rewrite list_lookup_middle. Qed.

Lemma array_outside (m : heap) (i : nat) :
  (length m <= i)%nat -> array m i = [].
Proof. intros Hi. unfold array. now rewrite lookup_ge_None_2. Qed.

Lemma length_load (m : heap) (s : slice) :
  slice_ok m s -> length (load m s) = len s.
Proof.
  intros [Hlen Hcap]. unfold load. rewrite length_take, length_drop. lia.
Qed.

(** A slice that is in bounds of no array shows nothing. *)
Lemma slice_ok_outside (m : heap) (s : slice) :
  slice_ok m s -> (length m <= arr s)%nat -> len s = 0%nat.
Proof.
  intros [Hlen Hcap] Hout. rewrite array_outside in Hcap by assumption.
  cbn in Hcap. lia.
Qed.

(** Allocating leaves what the slices of before show. *)
Lemma load_app (m : heap) (a : list Z) (s : slice) :
  slice_ok m s -> load (m ++ [a]) s = load m s.
Proof.
  intros Hok. destruct (Nat.lt_ge_cases (arr s) (length m)) as [Hin|Hout].
  - unfold load. now rewrite array_app_old.
  - unfold load. now rewrite (slice_ok_outside m s Hok Hout).
Qed.

Lemma load_reslice_prefix (m : heap) (s : slice) (n : nat) :
  (n <= len s)%nat -> load m (reslice s 0 n) = take n (load m s).
Proof.
  intros Hn. unfold load, reslice. cbn [arr off len].
  rewrite Nat.add_0_r, Nat.sub_0_r, take_take. now rewrite Nat.min_l.
Qed.

Lemma load_reslice_suffix (m : heap) (s : slice) (n : nat) :
  load m (reslice s n (len s)) = drop n (load m s).
Proof.
  unfold load, reslice. cbn [arr off len].
  rewrite skipn_firstn_comm, drop_drop. reflexivity.
Qed.

(** Writing into the array allocated last. *)
Lemma poke_last (m : heap) (a : list Z) (i : nat) (bs : list Z) :
  poke (m ++ [a]) (length m) i bs
  = m ++ [take i a ++ bs ++ drop (i + length bs) a].
Proof.
  unfold poke. rewrite array_app_new.
  rewrite insert_app_r_alt by lia. now rewrite Nat.sub_diag.
Qed.

(** Writing into one array leaves the slices of the others. *)
Lemma load_insert_other (m : heap) (a : nat) (new : list Z) (s : slice) :
  arr s <> a -> load (<[a := new]> m) s = load m s.
Proof.
  intros Hne. unfold load, array. now rewrite list_lookup_insert_ne.
Qed.

(** [s[i] = b] is not seen through a slice of another array. *)
Lemma load_store_other (m : heap) (s s' : slice) (i : nat) (b : Z) :
  arr s' <> arr s -> load (store m s i b) s' = load m s'.
Proof. intros Hne. unfold store, poke. now apply load_insert_other. Qed.

Lemma load_whole (m : heap) (a : nat) (bs : list Z) (n : nat) :
  array m a = bs -> n = length bs -> load m (mkSlice a 0 n n) = bs.
Proof.
  intros Ha Hn. unfold load. cbn [arr off len]. rewrite Ha, Hn.
  cbn [drop]. apply firstn_all.
Qed.

End MemFacts.

(** ** Marshalling a header, and the round trip *)

Section HeaderRoundTrip.
Import Binary BinaryFacts.

Lemma Header_MarshalBinary_ok (h : Header) :
  length (StreamName h) = 16%nat ->
  Header_MarshalBinary h
  = (PutUint32 (VBAN h)
       ++ [FormatSR h; FormatNbs h; FormatNbc h; FormatBit h]
       ++ StreamName h ++ PutUint32 (NuFrame h),
     None).
Proof.
  intros Hname. unfold Header_MarshalBinary.
  rewrite !length_app, Hname. cbn [length app Nat.add Z.of_nat].
  change (Z.of_nat 28 =? HeaderSize) with true. cbn [negb].
  now rewrite <- !app_assoc.
Qed.

Lemma length_Header_MarshalBinary (h : Header) :
  length (StreamName h) = 16%nat ->
  length (fst (Header_MarshalBinary h)) = 28%nat.
Proof.
  intros Hname. rewrite Header_MarshalBinary_ok by assumption.
  cbn [fst]. rewrite !length_app, Hname. reflexivity.
Qed.

(** A list of sixteen elements, spelled out. *)
Lemma list_of_length_16 (l : list Z) :
  length l = 16%nat ->
  exists a0 a1 a2 a3 a4 a5 a6 a7 a8 a9 a10 a11 a12 a13 a14 a15,
    l = [a0; a1; a2; a3; a4; a5; a6; a7; a8; a9; a10; a11; a12; a13; a14; a15].
Proof.
  intros Hl.
  do 16 (destruct l as [|? l]; [discriminate Hl|]).
  destruct l; [|discriminate Hl]. repeat eexists.
Qed.

Lemma Header_UnmarshalBinary_MarshalBinary (h h0 : Header) :
  is_uint32 (VBAN h) -> is_uint32 (NuFrame h) ->
  length (StreamName h) = 16%nat ->
  VBAN h = HeaderMagic ->
  length (StreamName h0) = 16%nat ->
  Header_UnmarshalBinary h0 (fst (Header_MarshalBinary h)) = (h, None).
Proof.
  intros Hv Hn Hname Hmagic Hname0.
  pose proof (length_Header_MarshalBinary h Hname) as Hlen.
  rewrite Header_MarshalBinary_ok in * by assumption. cbn [fst] in *.
  destruct h as [v sr nbs nbc bit name nf]. header_fields.
  destruct (list_of_length_16 name Hname)
    as (a0 & a1 & a2 & a3 & a4 & a5 & a6 & a7 & a8 & a9 & a10 & a11 & a12
        & a13 & a14 & a15 & ->).
  pose proof (Uint32_PutUint32 v Hv) as Ev.
  pose proof (Uint32_PutUint32 nf Hn) as En.
  destruct (PutUint32 v) as [|v0 [|v1 [|v2 [|v3 [|]]]]] eqn:Pv;
    try discriminate Pv.
  destruct (PutUint32 nf) as [|n0 [|n1 [|n2 [|n3 [|]]]]] eqn:Pn;
    try discriminate Pn.
  rewrite Header_UnmarshalBinary_good_magic.
  - cbn [app nth firstn skipn]. rewrite En. now subst v.
  - rewrite Hlen. apply Nat.le_refl.
  - cbn [app firstn]. rewrite Ev. exact Hmagic.
  - exact Hname0.
Qed.

End HeaderRoundTrip.

(** ** Packets *)

Section PacketFacts.
Import Binary BinaryFacts Mem MemFacts.

Lemma Zgtb_false (a b : Z) : a <= b -> (a >? b) = false.
Proof. intros Hab. rewrite Z.gtb_ltb. now apply Z.ltb_ge. Qed.

Lemma Zgtb_true (a b : Z) : b < a -> (a >? b) = true.
Proof. intros Hab. rewrite Z.gtb_ltb. now apply Z.ltb_lt. Qed.

(** Appending in place to a slice that starts the array allocated last. *)
Lemma append_last (m : heap) (a : list Z) (n c : nat) (bs : list Z) :
  (n + length bs <= c)%nat ->
  append (m ++ [a]) (mkSlice (length m) 0 n c) bs
  = (m ++ [take n a ++ bs ++ drop (n + length bs) a],
     mkSlice (length m) 0 (n + length bs) c).
Proof.
  intros Hc. unfold append. cbn [len cap off arr].
  rewrite (proj2 (Nat.leb_le _ _)) by assumption.
  now rewrite poke_last.
Qed.

(** A successful [Packet.MarshalBinary] allocates one array, holding the
    header bytes followed by the payload bytes. *)
Lemma Packet_MarshalBinary_ok (p : Packet) (m : heap) :
  length (StreamName (Packet_Header p)) = 16%nat ->
  slice_ok m (Packet_Data p) ->
  (len (Packet_Data p) <= 1436)%nat ->
  Packet_MarshalBinary p m
  = (m ++ [fst (Header_MarshalBinary (Packet_Header p))
             ++ load m (Packet_Data p)],
     (mkSlice (length m) 0 (28 + len (Packet_Data p))
              (28 + len (Packet_Data p)), None)).
Proof.
  intros Hname Hok Hmax.
  pose proof (length_Header_MarshalBinary _ Hname) as Hhb.
  pose proof (length_load m _ Hok) as Hpl.
  unfold Packet_MarshalBinary.
  destruct (Header_MarshalBinary (Packet_Header p)) as [hb err] eqn:E.
  rewrite Header_MarshalBinary_ok in E by assumption.
  injection E as E <-. clear E. cbn [fst] in Hhb |- *.
  unfold MaxPacketDataSize. rewrite Zgtb_false by lia.
  unfold make. rewrite Hhb.
  rewrite append_last by lia.
  rewrite Nat.add_0_l, Hhb, take_0, app_nil_l.
  rewrite load_app by assumption.
  rewrite append_last by lia.
  rewrite Hpl. f_equal. f_equal. f_equal.
  rewrite take_app_length' by (symmetry; exact Hhb).
  rewrite drop_ge, app_nil_r; [reflexivity|].
  rewrite length_app, length_drop, length_replicate. lia.
Qed.

(** A successful [UnmarshalBinary] allocates one array, holding the bytes
    after the header, and returns the slice of that whole array. *)
Lemma UnmarshalBinary_ok (data : slice) (m : heap) :
  slice_ok m data ->
  (28 <= len data <= 1464)%nat ->
  Uint32 (take 4 (load m data)) = HeaderMagic ->
  UnmarshalBinary data m
  = (m ++ [drop 28 (load m data)],
     (Some (mkPacket
              (fst (Header_UnmarshalBinary Header_zero (take 28 (load m data))))
              (mkSlice (length m) 0 (len data - 28) (len data - 28))),
      None)).
Proof.
  intros Hok Hlen Hmagic.
  pose proof (length_load m _ Hok) as Hpl.
  unfold UnmarshalBinary, HeaderSize, MaxVBANPacketSize, HeaderSize,
    MaxPacketDataSize.
  rewrite (proj2 (Z.ltb_ge _ _)) by lia. rewrite Zgtb_false by lia.
  cbn [Packet_Header Packet_Data]. change (Z.to_nat 28) with 28%nat.
  rewrite load_reslice_prefix by lia.
  rewrite Header_UnmarshalBinary_good_magic; cycle 1.
  { rewrite length_take. lia. }
  { rewrite take_take. exact Hmagic. }
  { reflexivity. }
  cbn [fst]. unfold make, copy. cbn [len reslice off arr].
  rewrite poke_last, take_0, app_nil_l.
  assert (slice_ok m (reslice data 28 (len data))) as Hok'.
  { destruct Hok as [H1 H2]. split; cbn [reslice len cap off arr]; lia. }
  rewrite load_app by exact Hok'.
  rewrite load_reslice_suffix.
  rewrite Nat.min_l by (rewrite length_drop; lia).
  rewrite take_ge by (rewrite length_drop; lia).
  rewrite (drop_ge (replicate _ _)), app_nil_r; [reflexivity|].
  rewrite length_replicate, length_drop. lia.
Qed.

End PacketFacts.

(** ** Samples per frame, channels, and construction *)

Section AccessorFacts.

Lemma SetSamplesPerFrame_zero (h : Header) :
  SetSamplesPerFrame h 0 = (h, Some ErrSamplesRange).
Proof. reflexivity. Qed.

Lemma SetChannels_zero (h : Header) :
  SetChannels h 0 = (h, Some ErrChannelsRange).
Proof. reflexivity. Qed.

(** Every argument the parameter type admits besides 0 is stored minus
    one and read back unchanged. *)
Lemma SamplesPerFrame_SetSamplesPerFrame (h : Header) (n : Z) :
  1 <= n <= 255 ->
  SetSamplesPerFrame h n = (set_FormatNbs h (n - 1), None) /\
  SamplesPerFrame (fst (SetSamplesPerFrame h n)) = n.
Proof.
  intros Hn. unfold SetSamplesPerFrame, SamplesPerFrame, uint8.
  rewrite (proj2 (Z.eqb_neq n 0)) by lia. cbn [fst set_FormatNbs FormatNbs].
  rewrite !Z.mod_small by lia. split; [reflexivity | lia].
Qed.

Lemma Channels_SetChannels (h : Header) (n : Z) :
  1 <= n <= 255 ->
  SetChannels h n = (set_FormatNbc h (n - 1), None) /\
  Channels (fst (SetChannels h n)) = n.
Proof.
  intros Hn. unfold SetChannels, Channels, uint8.
  rewrite (proj2 (Z.eqb_neq n 0)) by lia. cbn [fst set_FormatNbc FormatNbc].
  rewrite !Z.mod_small by lia. split; [reflexivity | lia].
Qed.

(** Below 255 the accessors return the stored byte plus one. *)
Lemma SamplesPerFrame_below_255 (h : Header) :
  0 <= FormatNbs h < 255 -> SamplesPerFrame h = FormatNbs h + 1.
Proof. intros Hb. unfold SamplesPerFrame, uint8. now rewrite Z.mod_small by lia. Qed.

Lemma Channels_below_255 (h : Header) :
  0 <= FormatNbc h < 255 -> Channels h = FormatNbc h + 1.
Proof. intros Hb. unfold Channels, uint8. now rewrite Z.mod_small by lia. Qed.

(** The sub-protocols whose five low bits are clear. *)
Lemma aligned_sub_protocol (sp : Z) :
  is_uint8 sp -> Z.land sp SRMask = 0 ->
  sp = 0x00 \/ sp = 0x20 \/ sp = 0x40 \/ sp = 0x60
  \/ sp = 0x80 \/ sp = 0xA0 \/ sp = 0xC0 \/ sp = 0xE0.
Proof.
  unfold is_uint8, SRMask. intros Hsp Hland.
  change 31 with (Z.ones 5) in Hland. rewrite Z.land_ones in Hland by lia.
  change (2 ^ 5) with 32 in Hland.
  pose proof (Z.div_mod sp 32 ltac:(lia)) as Hdiv.
  assert (0 <= sp / 32 < 8) as Hq by (split; [apply Z.div_pos | apply Z.div_lt_upper_bound]; lia).
  lia.
Qed.

(** For such a sub-protocol [NewHeader] gives what its comment says. *)
Lemma NewHeader_aligned (sp : Z) (name : string) :
  is_uint8 sp -> Z.land sp SRMask = 0 ->
  let h := NewHeader sp name in
  VBAN h = HeaderMagic /\ SubProtocol h = sp /\ SRIndex h = 0 /\
  StreamName h = StreamName (SetStreamName Header_zero name) /\
  FormatNbs h = 0 /\ FormatNbc h = 0 /\ FormatBit h = 0 /\ NuFrame h = 0.
Proof.
  intros Hsp Hland h. subst h. unfold NewHeader, SetStreamName, Header_zero.
  cbn [StreamName]. destruct (copy _ _) as [a l].
  unfold SubProtocol, SRIndex. header_fields.
  repeat split; try assumption.
  destruct (aligned_sub_protocol sp Hsp Hland)
    as [->|[->|[->|[->|[->|[->|[->| ->]]]]]]]; reflexivity.
Qed.

End AccessorFacts.

(** ** The stream name *)

Section StreamNameFacts.

Lemma string_of_bytes_of_string (s : string) :
  string_of_bytes (bytes_of_string s) = s.
Proof.
  unfold string_of_bytes, bytes_of_string. rewrite map_map.
  rewrite (map_ext _ (fun c => c)).
  - rewrite map_id. apply string_of_list_ascii_of_string.
  - intros c. rewrite N2Z.id. apply ascii_N_embedding.
Qed.

(** The zeroing loop of [SetStreamName]. *)
Lemma zero_fill (k l : nat) (a : list Z) :
  (l + k <= length a)%nat ->
  foldl (fun a i => <[i:=0]> a) a (seq l k)
  = take l a ++ replicate k 0 ++ drop (l + k) a.
Proof.
  revert l a. induction k as [|k IH]; intros l a Hlen.
  - cbn [seq foldl replicate app]. rewrite Nat.add_0_r. now rewrite take_drop.
  - cbn [seq foldl]. rewrite IH by (rewrite length_insert; lia).
    rewrite (take_S_r _ l 0) by (apply list_lookup_insert_eq; lia).
    rewrite take_insert_ge by lia.
    rewrite drop_insert_lt by lia.
    rewrite <- app_assoc. cbn [app replicate].
    now replace (S l + k)%nat with (l + S k)%nat by lia.
Qed.

(** What [SetStreamName] leaves in the field: the first 16 bytes of the
    name, then zeros. *)
Lemma StreamName_SetStreamName (h : Header) (name : string) :
  length (StreamName h) = 16%nat ->
  StreamName (SetStreamName h name)
  = take 16 (bytes_of_string name)
      ++ replicate (16 - length (bytes_of_string name)) 0.
Proof.
  intros Hname. unfold SetStreamName, copy.
  change (Z.to_nat MaxStreamNameLen) with 16%nat. cbn [StreamName set_StreamName].
  set (b := bytes_of_string name). rewrite Hname.
  set (n := (16 `min` length b)%nat).
  assert (length (take n b) = n) as Hn by (rewrite length_take; lia).
  rewrite zero_fill by (rewrite length_app, length_drop, Hn, Hname; lia).
  rewrite take_app_length' by (symmetry; exact Hn).
  rewrite drop_ge, app_nil_r
    by (rewrite length_app, length_drop, Hn, Hname; lia).
  destruct (Nat.le_ge_cases 16 (length b)) as [Hlong|Hshort].
  - subst n. rewrite Nat.min_l by assumption.
    now replace (16 - length b)%nat with (16 - 16)%nat by lia.
  - subst n. rewrite Nat.min_r by assumption.
    now rewrite !take_ge by lia.
Qed.

Lemma IndexByte_absent (l : list Z) (c : Z) :
  Forall (fun x => x <> c) l -> IndexByte l c = -1.
Proof.
  induction 1 as [|x l Hx Hl IH]; [reflexivity|].
  cbn [IndexByte]. rewrite (proj2 (Z.eqb_neq x c) Hx), IH. reflexivity.
Qed.

Lemma IndexByte_first (l l' : list Z) (c : Z) :
  Forall (fun x => x <> c) l ->
  IndexByte (l ++ c :: l') c = Z.of_nat (length l).
Proof.
  induction 1 as [|x l Hx Hl IH].
  - cbn [app IndexByte length]. now rewrite Z.eqb_refl.
  - cbn [app IndexByte length]. rewrite (proj2 (Z.eqb_neq x c) Hx), IH.
    rewrite (proj2 (Z.eqb_neq _ (-1))) by lia. lia.
Qed.

(** Reading back a name without a zero byte gives its first 16 bytes. *)
Lemma GetStreamName_SetStreamName (h : Header) (name : string) :
  length (StreamName h) = 16%nat ->
  Forall (fun x => x <> 0) (take 16 (bytes_of_string name)) ->
  GetStreamName (SetStreamName h name)
  = string_of_bytes (take 16 (bytes_of_string name)).
Proof.
  intros Hname Hnz. unfold GetStreamName.
  rewrite StreamName_SetStreamName by assumption.
  set (b := bytes_of_string name) in *.
  destruct (16 - length b)%nat as [|k] eqn:Hk.
  - cbn [replicate]. rewrite app_nil_r, IndexByte_absent by assumption.
    cbn [Z.eqb]. change (Z.to_nat MaxStreamNameLen) with 16%nat.
    now rewrite take_take, Nat.min_id.
  - cbn [replicate]. rewrite IndexByte_first by assumption.
    rewrite (proj2 (Z.eqb_neq _ (-1))) by lia.
    rewrite Nat2Z.id. now rewrite take_app_length.
Qed.

End StreamNameFacts.

(** ** Rate lookup *)

Section RateFacts.

Lemma masked_index_range (i : Z) : 0 <= Z.land i SRMask <= 31.
Proof.
  unfold SRMask. change 31 with (Z.ones 5) at 1 2.
  rewrite Z.land_ones by lia.
  pose proof (Z.mod_pos_bound i (2 ^ 5) ltac:(lia)). change (2 ^ 5) with 32 in *.
  lia.
Qed.

Ltac each_index k H :=
  assert (k = 0 \/ k = 1 \/ k = 2 \/ k = 3 \/ k = 4 \/ k = 5 \/ k = 6 \/ k = 7
          \/ k = 8 \/ k = 9 \/ k = 10 \/ k = 11 \/ k = 12 \/ k = 13 \/ k = 14
          \/ k = 15 \/ k = 16 \/ k = 17 \/ k = 18 \/ k = 19 \/ k = 20 \/ k = 21
          \/ k = 22 \/ k = 23 \/ k = 24 \/ k = 25 \/ k = 26 \/ k = 27 \/ k = 28
          \/ k = 29 \/ k = 30 \/ k = 31) as H by lia;
  repeat (destruct H as [H|H]; [subst k|]); [..|subst k].

(** The audio table is defined exactly on the indices 0..20. *)
Lemma SRList_defined (k : Z) :
  0 <= k <= 31 -> (is_Some (SRList !! k) <-> k <= 20).
Proof.
  intros Hk. each_index k H;
    (split; [intros [r Hr]; vm_compute in Hr; first [lia | discriminate Hr]
            | intros Hle; first [lia | vm_compute; eauto]]).
Qed.

(** The bit-rate table is defined exactly on the indices 0..24. *)
Lemma BPSList_defined (k : Z) :
  0 <= k <= 31 -> (is_Some (BPSList !! k) <-> k <= 24).
Proof.
  intros Hk. each_index k H;
    (split; [intros [r Hr]; vm_compute in Hr; first [lia | discriminate Hr]
            | intros Hle; first [lia | vm_compute; eauto]]).
Qed.

End RateFacts.

(** ** The closed endpoint *)

Section TransportFacts.
Context `{Net}.

Lemma Close_is_closed (s : state) : is_closed (fst (Close s)).
Proof.
  unfold is_closed, Close. destruct (udpConn (st_conn s)) as [u|] eqn:E.
  - destruct (sock_Close u (st_world s)) as [w err]. reflexivity.
  - exact E.
Qed.

(** On a closed endpoint every method answers at once and changes
    nothing: not the endpoint, not the byte arrays, not the network. *)
Lemma step_closed (o : op) (s : state) :
  is_closed s -> step o s = (s, closed_outcome o).
Proof.
  unfold is_closed. intros Hs.
  destruct o; cbn [step closed_outcome];
    unfold Close, Send, Receive, LocalAddr, RemoteAddr; now rewrite Hs.
Qed.

Lemma run_closed (os : list op) (s : state) :
  is_closed s -> run os s = (s, map closed_outcome os).
Proof.
  intros Hs. induction os as [|o os IH]; [reflexivity|].
  cbn [run map]. rewrite step_closed by assumption. now rewrite IH.
Qed.

End TransportFacts.

(** ** The endpoint on the sample socket layer *)

(** What is sent is received: same header, same payload bytes. *)
Example loopback_send_receive :
  let '(s1, err) := @Send loopback (Some sample_packet) None sample_state in
  let '(s2, (q, from, err')) := @Receive loopback s1 in
  err = None /\ err' = None /\ from = Some DefaultPort /\
  option_map Packet_Header q = Some sample_header /\
  option_map (fun q => Mem.load (st_mem s2) (Packet_Data q)) q
  = Some [20; 30; 40; 50].
Proof. vm_compute. repeat split; reflexivity. Qed.

Example loopback_closed :
  snd (@run loopback [OpSend (Some sample_packet) None; OpReceive; OpClose]
                     (fst (@Close loopback sample_state)))
  = [OutError (Some ErrConnClosed);
     OutReceive (None, None, Some ErrConnClosed);
     OutError None].
Proof. vm_compute. reflexivity. Qed.

(** * The claims of the specification *)

Ltac solve_range := cbv; split; [discriminate | reflexivity].

Ltac solve_wf_Header :=
  constructor;
  [ solve_range | solve_range | solve_range | solve_range | solve_range
  | reflexivity
  | repeat (constructor; [solve_range|]); constructor
  | solve_range ].

Section Claims.
Import Binary BinaryFacts Mem MemFacts.

(** C1. Header round trip: for every valid header [h] (well-formed, magic
    equal to the protocol constant), [Header.MarshalBinary] succeeds with
    28 bytes, and [Header.UnmarshalBinary] applied to them, on any
    receiver, succeeds and leaves the receiver equal to [h] in every
    field. *)
Theorem C1_header_round_trip (h h0 : Header) :
  wf_Header h -> VBAN h = HeaderMagic -> wf_Header h0 ->
  snd (Header_MarshalBinary h) = None /\
  length (fst (Header_MarshalBinary h)) = 28%nat /\
  Header_UnmarshalBinary h0 (fst (Header_MarshalBinary h)) = (h, None).
Proof.
  intros Hwf Hmagic Hwf0.
  pose proof (wf_StreamName_len h Hwf) as Hname.
  pose proof (wf_StreamName_len h0 Hwf0) as Hname0.
  change (Z.to_nat MaxStreamNameLen) with 16%nat in Hname, Hname0.
  split; [|split].
  - now rewrite Header_MarshalBinary_ok.
  - now apply length_Header_MarshalBinary.
  - apply Header_UnmarshalBinary_MarshalBinary; auto using wf_VBAN, wf_NuFrame.
Qed.

Lemma C1_header_round_trip_witness :
  snd (Header_MarshalBinary sample_header) = None /\
  length (fst (Header_MarshalBinary sample_header)) = 28%nat /\
  Header_UnmarshalBinary Header_zero (fst (Header_MarshalBinary sample_header))
  = (sample_header, None).
Proof.
  apply (C1_header_round_trip sample_header Header_zero);
    [solve_wf_Header | reflexivity | solve_wf_Header].
Defined.

(** C3. Magic rejection: for every input of at least 28 bytes whose first
    four bytes, read little-endian, differ from [HeaderMagic],
    [Header.UnmarshalBinary] fails with the invalid-magic error whatever
    the other bytes are; and so does the packet-level [UnmarshalBinary]
    (which wraps that error) on every slice of 28 to 1464 such bytes. *)
Theorem C3_magic_rejection (h : Header) (bytes : list Z) :
  (28 <= length bytes)%nat ->
  Uint32 (take 4 bytes) <> HeaderMagic ->
  snd (Header_UnmarshalBinary h bytes)
  = Some (ErrInvalidMagic HeaderMagic (Uint32 (take 4 bytes)))
  /\
  forall (m : heap) (data : slice),
    slice_ok m data -> load m data = bytes -> (len data <= 1464)%nat ->
    UnmarshalBinary data m
    = (m, (None,
           Some (ErrUnmarshalHeader
                   (ErrInvalidMagic HeaderMagic (Uint32 (take 4 bytes)))))).
Proof.
  intros Hlen Hmagic. split.
  - now rewrite Header_UnmarshalBinary_bad_magic.
  - intros m data Hok Hload Hmax.
    pose proof (length_load m data Hok) as Hl. rewrite Hload in Hl.
    unfold UnmarshalBinary, HeaderSize, MaxVBANPacketSize, HeaderSize,
      MaxPacketDataSize.
    rewrite (proj2 (Z.ltb_ge _ _)) by lia. rewrite Zgtb_false by lia.
    cbn [Packet_Header Packet_Data]. change (Z.to_nat 28) with 28%nat.
    rewrite load_reslice_prefix by lia. rewrite Hload.
    rewrite Header_UnmarshalBinary_bad_magic.
    + now rewrite take_take.
    + rewrite length_take. lia.
    + now rewrite take_take.
Qed.

Lemma C3_magic_rejection_witness :
  snd (Header_UnmarshalBinary sample_header (replicate 28 0))
  = Some (ErrInvalidMagic HeaderMagic 0)
  /\
  forall (m : heap) (data : slice),
    slice_ok m data -> load m data = replicate 28 0 -> (len data <= 1464)%nat ->
    UnmarshalBinary data m
    = (m, (None, Some (ErrUnmarshalHeader (ErrInvalidMagic HeaderMagic 0)))).
Proof.
  apply (C3_magic_rejection sample_header (replicate 28 0)).
  - cbn. lia.
  - vm_compute. discriminate.
Defined.

(** C4. Packet round trip: for every packet [p] with a valid header and
    a payload of at most 1436 bytes, [p.MarshalBinary()] succeeds, and the
    free function [UnmarshalBinary] applied to its output succeeds with a
    packet [q] that has the header of [p] and a payload showing the bytes
    of the payload of [p]. The payload of [q] lies in an array allocated by
    the decoder (no array of before the call, so neither the input's nor
    the one of [p]), and overwriting any array of before the call, the
    input's included, leaves the bytes it shows unchanged. *)
Theorem C4_packet_round_trip (p : Packet) (m : heap) :
  wf_Header (Packet_Header p) ->
  VBAN (Packet_Header p) = HeaderMagic ->
  slice_ok m (Packet_Data p) ->
  (len (Packet_Data p) <= 1436)%nat ->
  exists (m1 : heap) (out : slice) (m2 : heap) (q : Packet),
    Packet_MarshalBinary p m = (m1, (out, None)) /\
    UnmarshalBinary out m1 = (m2, (Some q, None)) /\
    Packet_Header q = Packet_Header p /\
    load m2 (Packet_Data q) = load m (Packet_Data p) /\
    (length m1 <= arr (Packet_Data q))%nat /\
    (arr out < length m1)%nat /\
    forall (a : nat) (new : list Z),
      (a < length m1)%nat ->
      load (<[a := new]> m2) (Packet_Data q) = load m (Packet_Data p).
Proof.
  intros Hwf Hmagic Hok Hmax.
  pose proof (wf_StreamName_len _ Hwf) as Hname.
  change (Z.to_nat MaxStreamNameLen) with 16%nat in Hname.
  pose proof (length_Header_MarshalBinary _ Hname) as Hhb.
  pose proof (length_load m _ Hok) as Hpl.
  pose proof (Header_UnmarshalBinary_MarshalBinary (Packet_Header p) Header_zero
                (wf_VBAN _ Hwf) (wf_NuFrame _ Hwf) Hname Hmagic eq_refl) as Hrt.
  set (hb := fst (Header_MarshalBinary (Packet_Header p))) in *.
  set (payload := load m (Packet_Data p)) in *.
  set (out := mkSlice (length m) 0 (28 + len (Packet_Data p))
                      (28 + len (Packet_Data p))).
  set (m1 := m ++ [hb ++ payload]).
  assert (load m1 out = hb ++ payload) as Hout.
  { apply load_whole; [apply array_app_new|].
    rewrite length_app, Hhb, Hpl. reflexivity. }
  assert (take 28 (hb ++ payload) = hb) as Htake.
  { now apply take_app_length'. }
  assert (drop 28 (hb ++ payload) = payload) as Hdrop.
  { now apply drop_app_length'. }
  assert (slice_ok m1 out) as Hok1.
  { split; cbn [out len cap off arr]; [lia|].
    unfold m1. rewrite array_app_new, length_app, Hhb, Hpl. lia. }
  assert (Uint32 (take 4 (load m1 out)) = HeaderMagic) as Hm1.
  { rewrite Hout, take_app_le by lia.
    unfold hb. rewrite Header_MarshalBinary_ok by assumption. cbn [fst].
    rewrite take_app_length' by reflexivity.
    rewrite Uint32_PutUint32 by (apply wf_VBAN, Hwf). exact Hmagic. }
  exists m1, out, (m1 ++ [payload]),
    (mkPacket (Packet_Header p)
       (mkSlice (length m1) 0 (len (Packet_Data p)) (len (Packet_Data p)))).
  assert (load (m1 ++ [payload])
            (mkSlice (length m1) 0 (len (Packet_Data p)) (len (Packet_Data p)))
          = payload) as Hq.
  { apply load_whole; [apply array_app_new | now rewrite Hpl]. }
  repeat split.
  - now apply Packet_MarshalBinary_ok.
  - rewrite UnmarshalBinary_ok; [|exact Hok1|cbn [out len]; lia|exact Hm1].
    rewrite Hout, Htake, Hdrop, Hrt. cbn [fst out len].
    now replace (28 + len (Packet_Data p) - 28)%nat with (len (Packet_Data p)) by lia.
  - exact Hq.
  - cbn [Packet_Data arr]. lia.
  - unfold m1. cbn [out arr]. rewrite length_app. cbn [length]. lia.
  - intros a new Ha. cbn [Packet_Data].
    rewrite load_insert_other by (cbn [arr]; lia). exact Hq.
Qed.

Lemma C4_packet_round_trip_witness :
  exists (m1 : heap) (out : slice) (m2 : heap) (q : Packet),
    Packet_MarshalBinary sample_packet sample_heap = (m1, (out, None)) /\
    UnmarshalBinary out m1 = (m2, (Some q, None)) /\
    Packet_Header q = Packet_Header sample_packet /\
    load m2 (Packet_Data q) = load sample_heap (Packet_Data sample_packet) /\
    (length m1 <= arr (Packet_Data q))%nat /\
    (arr out < length m1)%nat /\
    forall (a : nat) (new : list Z),
      (a < length m1)%nat ->
      load (<[a := new]> m2) (Packet_Data q)
      = load sample_heap (Packet_Data sample_packet).
Proof.
  apply (C4_packet_round_trip sample_packet sample_heap).
  - solve_wf_Header.
  - reflexivity.
  - split; cbn; lia.
  - cbn; lia.
Defined.

(** C5. Size boundaries: [NewPacket] succeeds for every payload of 1436
    bytes (or fewer) and fails with the data-size error for every payload
    of 1437 bytes or more; the packet-level [UnmarshalBinary] fails for
    every input of 27 bytes or fewer, fails for every input of 1465 bytes
    or more, and for an input of exactly 28 bytes (carrying the magic, as
    every decodable input must) succeeds with an empty payload. *)
Theorem C5_size_boundaries (header : Header) (data : slice) (m : heap) :
  ((len data <= 1436)%nat ->
   NewPacket header data = (Some (mkPacket header data), None))
  /\
  ((1437 <= len data)%nat ->
   NewPacket header data
   = (None, Some (ErrDataSize (Z.of_nat (len data)) 1436)))
  /\
  ((len data <= 27)%nat ->
   UnmarshalBinary data m
   = (m, (None, Some (ErrInsufficientPacket (Z.of_nat (len data)) 28))))
  /\
  (len data = 28%nat -> slice_ok m data ->
   Uint32 (take 4 (load m data)) = HeaderMagic ->
   exists (m' : heap) (q : Packet),
     UnmarshalBinary data m = (m', (Some q, None)) /\
     len (Packet_Data q) = 0%nat /\ load m' (Packet_Data q) = [])
  /\
  ((1465 <= len data)%nat ->
   UnmarshalBinary data m
   = (m, (None, Some (ErrPacketSize (Z.of_nat (len data)) 1464)))).
Proof.
  repeat split.
  - intros Hlen. unfold NewPacket, MaxPacketDataSize.
    now rewrite Zgtb_false by lia.
  - intros Hlen. unfold NewPacket, MaxPacketDataSize.
    now rewrite Zgtb_true by lia.
  - intros Hlen. unfold UnmarshalBinary, HeaderSize.
    now rewrite (proj2 (Z.ltb_lt _ _)) by lia.
  - intros Hlen Hok Hmagic.
    rewrite UnmarshalBinary_ok by (auto; lia).
    eexists _, _. split; [reflexivity|]. cbn [Packet_Data len].
    split; [lia|]. unfold load. cbn [len]. rewrite Hlen. reflexivity.
  - intros Hlen.
    unfold UnmarshalBinary, HeaderSize, MaxVBANPacketSize, HeaderSize,
      MaxPacketDataSize.
    rewrite (proj2 (Z.ltb_ge _ _)) by lia. now rewrite Zgtb_true by lia.
Qed.

Lemma C5_size_boundaries_witness :
  NewPacket sample_header (mkSlice 0 0 1436 1436)
  = (Some (mkPacket sample_header (mkSlice 0 0 1436 1436)), None)
  /\
  NewPacket sample_header (mkSlice 0 0 1437 1437)
  = (None, Some (ErrDataSize 1437 1436))
  /\
  UnmarshalBinary (mkSlice 0 0 27 27) [replicate 27 0]
  = ([replicate 27 0], (None, Some (ErrInsufficientPacket 27 28)))
  /\
  (exists (m' : heap) (q : Packet),
     UnmarshalBinary (mkSlice 0 0 28 28) [fst (Header_MarshalBinary sample_header)]
     = (m', (Some q, None)) /\
     len (Packet_Data q) = 0%nat /\ load m' (Packet_Data q) = [])
  /\
  UnmarshalBinary (mkSlice 0 0 1465 1465) [replicate 1465 0]
  = ([replicate 1465 0], (None, Some (ErrPacketSize 1465 1464))).
Proof.
  split; [|split; [|split; [|split]]].
  - apply (C5_size_boundaries sample_header (mkSlice 0 0 1436 1436) []).
    cbn. lia.
  - apply (C5_size_boundaries sample_header (mkSlice 0 0 1437 1437) []).
    cbn. lia.
  - apply (C5_size_boundaries sample_header (mkSlice 0 0 27 27)
             [replicate 27 0]).
    cbn. lia.
  - apply (C5_size_boundaries sample_header (mkSlice 0 0 28 28)
             [fst (Header_MarshalBinary sample_header)]).
    + reflexivity.
    + split; vm_compute; lia.
    + reflexivity.
  - apply (C5_size_boundaries sample_header (mkSlice 0 0 1465 1465)
             [replicate 1465 0]).
    cbn. lia.
Defined.

(** C6, as the code has it. The claim as stated fails: on a bad magic
    [Header.UnmarshalBinary] has already stored the rejected value in the
    magic field of the receiver. *)
Lemma C6_receiver_magic_overwritten :
  snd (Header_UnmarshalBinary sample_header (replicate 28 0))
  = Some (ErrInvalidMagic HeaderMagic 0)
  /\ fst (Header_UnmarshalBinary sample_header (replicate 28 0))
     <> sample_header.
Proof. split; [reflexivity | vm_compute; discriminate]. Qed.

(** C6, amended. Whenever the packet-level [UnmarshalBinary] fails it
    returns no packet and leaves the heap as it was. Whenever
    [Header.UnmarshalBinary] fails on a well-formed receiver, either the
    input is shorter than 28 bytes and the receiver is unchanged, or the
    magic is wrong and the receiver is unchanged except for its magic
    field, which holds the rejected value. *)
Theorem C6_decode_failure (h : Header) (bytes : list Z) (e : error)
    (data : slice) (m : heap) :
  wf_Header h ->
  (snd (snd (UnmarshalBinary data m)) = Some e ->
   fst (snd (UnmarshalBinary data m)) = None /\
   fst (UnmarshalBinary data m) = m)
  /\
  (snd (Header_UnmarshalBinary h bytes) = Some e ->
   ((length bytes < 28)%nat /\
    e = ErrInsufficientHeader 28 (Z.of_nat (length bytes)) /\
    fst (Header_UnmarshalBinary h bytes) = h)
   \/
   ((28 <= length bytes)%nat /\
    e = ErrInvalidMagic HeaderMagic (Uint32 (take 4 bytes)) /\
    Uint32 (take 4 bytes) <> HeaderMagic /\
    fst (Header_UnmarshalBinary h bytes) = set_VBAN h (Uint32 (take 4 bytes)))).
Proof.
  intros Hwf. split.
  - unfold UnmarshalBinary.
    destruct (Z.of_nat (len data) <? HeaderSize); [auto|].
    destruct (Z.of_nat (len data) >? MaxVBANPacketSize); [auto|].
    destruct (Header_UnmarshalBinary _ _) as [h' [err|]]; [auto|].
    cbn. discriminate.
  - pose proof (wf_StreamName_len _ Hwf) as Hname.
    change (Z.to_nat MaxStreamNameLen) with 16%nat in Hname.
    destruct (Nat.lt_ge_cases (length bytes) 28) as [Hshort|Hlong].
    + rewrite Header_UnmarshalBinary_short by assumption. cbn [fst snd].
      intros [= <-]. left. auto.
    + destruct (Z.eq_dec (Uint32 (take 4 bytes)) HeaderMagic) as [Hm|Hm].
      * rewrite Header_UnmarshalBinary_good_magic by assumption.
        cbn [snd]. discriminate.
      * rewrite Header_UnmarshalBinary_bad_magic by assumption.
        cbn [fst snd]. intros [= <-]. right. auto.
Qed.

Lemma C6_decode_failure_witness :
  (snd (snd (UnmarshalBinary (mkSlice 0 0 28 28) [replicate 28 0]))
   = Some (ErrUnmarshalHeader (ErrInvalidMagic HeaderMagic 0)) ->
   fst (snd (UnmarshalBinary (mkSlice 0 0 28 28) [replicate 28 0])) = None /\
   fst (UnmarshalBinary (mkSlice 0 0 28 28) [replicate 28 0])
   = [replicate 28 0])
  /\
  (snd (Header_UnmarshalBinary sample_header (replicate 27 0))
   = Some (ErrInsufficientHeader 28 27) ->
   fst (Header_UnmarshalBinary sample_header (replicate 27 0)) = sample_header)
  /\
  (snd (Header_UnmarshalBinary sample_header (replicate 28 0))
   = Some (ErrInvalidMagic HeaderMagic 0) ->
   fst (Header_UnmarshalBinary sample_header (replicate 28 0))
   = set_VBAN sample_header 0).
Proof.
  split; [|split].
  - apply (C6_decode_failure sample_header (replicate 28 0)
             (ErrUnmarshalHeader (ErrInvalidMagic HeaderMagic 0))
             (mkSlice 0 0 28 28) [replicate 28 0]).
    solve_wf_Header.
  - intros He.
    destruct (proj2 (C6_decode_failure sample_header (replicate 27 0)
                       (ErrInsufficientHeader 28 27) (mkSlice 0 0 0 0) []
                       ltac:(solve_wf_Header)) He)
      as [(_ & _ & Hh)|(Hlen & _)].
    + exact Hh.
    + cbn in Hlen. lia.
  - intros He.
    destruct (proj2 (C6_decode_failure sample_header (replicate 28 0)
                       (ErrInvalidMagic HeaderMagic 0) (mkSlice 0 0 0 0) []
                       ltac:(solve_wf_Header)) He)
      as [(Hlen & _)|(_ & _ & _ & Hh)].
    + cbn in Hlen. lia.
    + exact Hh.
Defined.

(** C2. Samples and channels. The source documents the domain 1..256 and
    the convention "stored byte plus one", but computes in [uint8]: a
    stored byte 255 (as in any header read from the wire with that byte)
    reads back as 0, not 256, and 256 converted to the parameter type is
    0, which the setters reject. The code is evaluated here at those
    inputs. *)
Theorem C2_samples_channels_wrap_at_255 :
  SamplesPerFrame (set_FormatNbs sample_header 255) = 0 /\
  Channels (set_FormatNbc sample_header 255) = 0 /\
  SetSamplesPerFrame sample_header (uint8 256)
  = (sample_header, Some ErrSamplesRange) /\
  SetChannels sample_header (uint8 256)
  = (sample_header, Some ErrChannelsRange).
Proof. repeat split. Qed.

(** C7. [NewHeader] stores the sub-protocol argument unmasked, although
    its comment promises a rate index of 0 and [SetAudioFormat] masks:
    with the argument 0x21 the rate index of the new header is 1. *)
Theorem C7_NewHeader_keeps_low_bits :
  FormatSR (NewHeader 0x21 "x") = 0x21 /\
  SubProtocol (NewHeader 0x21 "x") = ProtocolSerial /\
  SRIndex (NewHeader 0x21 "x") = 1.
Proof. repeat split. Qed.

(** C8, as the code has it. The claim as stated fails for a short name
    with a zero byte inside: [GetStreamName] stops at that byte. *)
Lemma C8_name_with_zero_cut :
  (length (bytes_of_string name_with_zero) < 16)%nat /\
  GetStreamName (SetStreamName sample_header name_with_zero) = "a"%string /\
  GetStreamName (SetStreamName sample_header name_with_zero) <> name_with_zero.
Proof. split; [cbn; lia|]. split; [reflexivity | vm_compute; discriminate]. Qed.

(** C8, amended. For every name of fewer than 16 bytes [SetStreamName]
    stores the name followed by zeros up to the sixteenth byte, whatever
    the field held before; for every name of 16 bytes or more it stores
    the first 16 bytes; and for every name of at most 16 bytes that
    contains no zero byte [GetStreamName] then returns exactly the
    name. *)
Theorem C8_stream_name (h : Header) (name : string) :
  wf_Header h ->
  ((length (bytes_of_string name) < 16)%nat ->
   StreamName (SetStreamName h name)
   = bytes_of_string name
       ++ replicate (16 - length (bytes_of_string name)) 0)
  /\
  ((16 <= length (bytes_of_string name))%nat ->
   StreamName (SetStreamName h name) = take 16 (bytes_of_string name))
  /\
  ((length (bytes_of_string name) <= 16)%nat ->
   Forall (fun x => x <> 0) (bytes_of_string name) ->
   GetStreamName (SetStreamName h name) = name).
Proof.
  intros Hwf. pose proof (wf_StreamName_len _ Hwf) as Hname.
  change (Z.to_nat MaxStreamNameLen) with 16%nat in Hname.
  split; [|split].
  - intros Hshort. rewrite StreamName_SetStreamName by assumption.
    now rewrite take_ge by lia.
  - intros Hlong. rewrite StreamName_SetStreamName by assumption.
    replace (16 - length (bytes_of_string name))%nat with 0%nat by lia.
    apply app_nil_r.
  - intros Hlen Hnz.
    rewrite GetStreamName_SetStreamName by (rewrite ?take_ge by lia; assumption).
    rewrite take_ge by lia. apply string_of_bytes_of_string.
Qed.

Lemma C8_stream_name_witness :
  ((length (bytes_of_string "Mic") < 16)%nat ->
   StreamName (SetStreamName sample_header "Mic")
   = bytes_of_string "Mic" ++ replicate (16 - length (bytes_of_string "Mic")) 0)
  /\
  ((16 <= length (bytes_of_string "Mic"))%nat ->
   StreamName (SetStreamName sample_header "Mic") = take 16 (bytes_of_string "Mic"))
  /\
  ((length (bytes_of_string "Mic") <= 16)%nat ->
   Forall (fun x => x <> 0) (bytes_of_string "Mic") ->
   GetStreamName (SetStreamName sample_header "Mic") = "Mic"%string).
Proof. apply (C8_stream_name sample_header "Mic"). solve_wf_Header. Defined.

(** C9. Rate lookup: for every index [i] and sub-protocol [sp], [GetRate]
    is a total function; the masked index [i & 0x1F] lies in 0..31; when
    [sp] is Audio the result is the entry of the sample-rate table for
    the masked indices 0..20 and 0 for 21..31, where the table has no
    entry; when [sp] is Serial or Text it is the entry of the bit-rate
    table for 0..24 and 0 for 25..31; and it is 0 for every other [sp]. *)
Theorem C9_rate_lookup (i sp : Z) :
  let index := Z.land i SRMask in
  0 <= index <= 31 /\
  (IsAudio sp = true ->
   (index <= 20 -> SRList !! index = Some (GetRate i sp)) /\
   (21 <= index -> SRList !! index = None /\ GetRate i sp = 0))
  /\
  (IsSerial sp || IsText sp = true ->
   (index <= 24 -> BPSList !! index = Some (GetRate i sp)) /\
   (25 <= index -> BPSList !! index = None /\ GetRate i sp = 0))
  /\
  (IsAudio sp = false -> IsSerial sp = false -> IsText sp = false ->
   GetRate i sp = 0).
Proof.
  intros index. pose proof (masked_index_range i) as Hrange.
  fold index in Hrange. split; [exact Hrange|].
  pose proof (SRList_defined index Hrange) as Hsr.
  pose proof (BPSList_defined index Hrange) as Hbps.
  unfold GetRate. fold index. split; [|split].
  - intros ->. split.
    + intros Hle. destruct (proj2 Hsr Hle) as [r ->]. reflexivity.
    + intros Hge. destruct (SRList !! index) as [r|] eqn:E; [|auto].
      assert (index <= 20) by (apply Hsr; eauto). lia.
  - intros Hst.
    assert (IsAudio sp = false) as ->.
    { unfold IsAudio, IsSerial, IsText, ProtocolAudio, ProtocolSerial,
        ProtocolText in *.
      destruct (Z.eqb_spec (Z.land sp ProtocolMask) 0) as [E|]; [|reflexivity].
      rewrite E in Hst. discriminate Hst. }
    rewrite Hst. split.
    + intros Hle. destruct (proj2 Hbps Hle) as [r ->]. reflexivity.
    + intros Hge. destruct (BPSList !! index) as [r|] eqn:E; [|auto].
      assert (index <= 24) by (apply Hbps; eauto). lia.
  - intros -> -> ->. reflexivity.
Qed.

End Claims.

Section ClosedEndpoint.
Context `{Net}.

(** C10. Closed endpoint: after [Close()] on any endpoint the endpoint is
    closed; from then on every sequence of calls leaves the state as it
    is (the endpoint stays closed, and neither the network nor the byte
    arrays are touched), every [Send] and [Receive] in it answers the
    connection-is-closed error, and every further [Close] answers
    success. *)
Theorem C10_closed_endpoint (s : state) (os : list op) :
  let s1 := fst (Close s) in
  is_closed s1 /\
  fst (run os s1) = s1 /\
  snd (run os s1) = map closed_outcome os /\
  Close s1 = (s1, None) /\
  (forall packet addr, Send packet addr s1 = (s1, Some ErrConnClosed)) /\
  Receive s1 = (s1, (None, None, Some ErrConnClosed)).
Proof.
  intros s1. pose proof (Close_is_closed s) as Hs1. fold s1 in Hs1.
  split; [exact Hs1|]. rewrite run_closed by exact Hs1.
  unfold is_closed in Hs1.
  repeat split; intros; unfold Close, Send, Receive; now rewrite Hs1.
Qed.

End ClosedEndpoint.

(** * Further properties of the code *)

(** ** Bytes and bit fields *)

Section ByteFacts.

(** A decidable property of a byte holds if it holds of the 256 bytes. *)
Lemma byte_cases (P : Z -> bool) :
  forallb P (map Z.of_nat (seq 0 256)) = true ->
  forall b : Z, is_uint8 b -> P b = true.
Proof.
  intros Hall b Hb. rewrite forallb_forall in Hall. apply Hall.
  rewrite <- (Z2Nat.id b) by (unfold is_uint8 in Hb; lia).
  apply in_map, in_seq. unfold is_uint8 in Hb. lia.
Qed.

Lemma land_SRMask_range (x : Z) : 0 <= Z.land x SRMask <= 31.
Proof.
  unfold SRMask. change 31 with (Z.ones 5) at 1 2.
  rewrite Z.land_ones by lia.
  pose proof (Z.mod_pos_bound x (2 ^ 5) ltac:(lia)). change (2 ^ 5) with 32 in *.
  lia.
Qed.

Lemma land_DataTypeMask_range (x : Z) : 0 <= Z.land x DataTypeMask <= 7.
Proof.
  unfold DataTypeMask. change 7 with (Z.ones 3) at 1 2.
  rewrite Z.land_ones by lia.
  pose proof (Z.mod_pos_bound x (2 ^ 3) ltac:(lia)). change (2 ^ 3) with 8 in *.
  lia.
Qed.

End ByteFacts.

Ltac index_cases k H :=
  assert (k = 0 \/ k = 1 \/ k = 2 \/ k = 3 \/ k = 4 \/ k = 5 \/ k = 6 \/ k = 7
          \/ k = 8 \/ k = 9 \/ k = 10 \/ k = 11 \/ k = 12 \/ k = 13 \/ k = 14
          \/ k = 15 \/ k = 16 \/ k = 17 \/ k = 18 \/ k = 19 \/ k = 20 \/ k = 21
          \/ k = 22 \/ k = 23 \/ k = 24 \/ k = 25 \/ k = 26 \/ k = 27 \/ k = 28
          \/ k = 29 \/ k = 30 \/ k = 31) as H by lia;
  repeat (destruct H as [H|H]; [subst k|]); [..|subst k].

(** ** Sub-protocols, rates and sample sizes *)

Section ConstantsExtras.

(** X1. The kind of a sub-protocol is read off the top three bits only:
    each of [IsAudio], [IsSerial], [IsText], [IsService] gives the same
    answer on a raw format byte, with any rate index in its low bits, as
    on the masked sub-protocol. At most one of the four holds, and on a
    byte none holds exactly from 0x80 up. *)
Theorem X1_sub_protocol_kind (b : Z) :
  IsAudio b = IsAudio (Z.land b ProtocolMask) /\
  IsSerial b = IsSerial (Z.land b ProtocolMask) /\
  IsText b = IsText (Z.land b ProtocolMask) /\
  IsService b = IsService (Z.land b ProtocolMask) /\
  Z.b2z (IsAudio b) + Z.b2z (IsSerial b) + Z.b2z (IsText b)
    + Z.b2z (IsService b) <= 1 /\
  (is_uint8 b ->
   (IsAudio b || IsSerial b || IsText b || IsService b = false <-> 128 <= b)).
Proof.
  assert (Z.land (Z.land b ProtocolMask) ProtocolMask = Z.land b ProtocolMask)
    as Hidem by (now rewrite <- Z.land_assoc).
  unfold IsAudio, IsSerial, IsText, IsService. rewrite !Hidem.
  repeat split; try reflexivity.
  - unfold ProtocolAudio, ProtocolSerial, ProtocolText, ProtocolService.
    destruct (Z.eqb_spec (Z.land b ProtocolMask) 0) as [->|]; [cbn; lia|].
    destruct (Z.eqb_spec (Z.land b ProtocolMask) 32) as [->|]; [cbn; lia|].
    destruct (Z.eqb_spec (Z.land b ProtocolMask) 64) as [->|]; [cbn; lia|].
    destruct (Z.eqb_spec (Z.land b ProtocolMask) 96); cbn; lia.
  - intros Hnone.
    pose proof (byte_cases
      (fun b => implb (negb ((Z.land b ProtocolMask =? ProtocolAudio)
                             || (Z.land b ProtocolMask =? ProtocolSerial)
                             || (Z.land b ProtocolMask =? ProtocolText)
                             || (Z.land b ProtocolMask =? ProtocolService)))
                      (128 <=? b)) eq_refl b H) as Hb.
    cbv beta in Hb. rewrite Hnone in Hb. cbn [negb implb] in Hb.
    now apply Z.leb_le.
  - intros Hge.
    pose proof (byte_cases
      (fun b => implb (128 <=? b)
                      (negb ((Z.land b ProtocolMask =? ProtocolAudio)
                             || (Z.land b ProtocolMask =? ProtocolSerial)
                             || (Z.land b ProtocolMask =? ProtocolText)
                             || (Z.land b ProtocolMask =? ProtocolService))))
      eq_refl b H) as Hb.
    cbv beta in Hb. rewrite (proj2 (Z.leb_le 128 b) Hge) in Hb.
    cbn [implb] in Hb. now apply negb_true_iff in Hb.
Qed.

Lemma serial_or_text_not_audio (sp : Z) :
  IsSerial sp || IsText sp = true -> IsAudio sp = false.
Proof.
  unfold IsAudio, IsSerial, IsText, ProtocolAudio, ProtocolSerial, ProtocolText.
  intros Hst.
  destruct (Z.eqb_spec (Z.land sp ProtocolMask) 0) as [E|]; [|reflexivity].
  rewrite E in Hst. discriminate Hst.
Qed.

(** X2. [GetRate] looks only at the low five bits of the index and at the
    top three bits of the sub-protocol, so the raw format byte of a header
    can be passed for both; and Serial and Text share one table. *)
Theorem X2_rate_ignores_other_bits (i sp sp' : Z) (h : Header) :
  GetRate i sp = GetRate (Z.land i SRMask) (Z.land sp ProtocolMask) /\
  GetRate (FormatSR h) (FormatSR h) = GetRate (SRIndex h) (SubProtocol h) /\
  (IsSerial sp = true -> IsText sp' = true -> GetRate i sp = GetRate i sp').
Proof.
  assert (forall x, Z.land (Z.land x SRMask) SRMask = Z.land x SRMask) as Hi
    by (intros x; now rewrite <- Z.land_assoc).
  assert (forall x, Z.land (Z.land x ProtocolMask) ProtocolMask
                    = Z.land x ProtocolMask) as Hp
    by (intros x; now rewrite <- Z.land_assoc).
  split; [|split].
  - unfold GetRate, IsAudio, IsSerial, IsText. now rewrite Hi, Hp.
  - unfold GetRate, IsAudio, IsSerial, IsText, SRIndex, SubProtocol.
    now rewrite Hi, Hp.
  - intros Hs Ht. unfold GetRate.
    rewrite (serial_or_text_not_audio sp) by (rewrite Hs; reflexivity).
    rewrite (serial_or_text_not_audio sp') by (rewrite Ht; apply orb_true_r).
    rewrite Hs, Ht, orb_true_r. reflexivity.
Qed.

(** X3. What a rate of 0 means. Every rate fits 32 bits. For Audio the
    rate is 0 exactly when the masked index has no table entry (21..31),
    and is at least 6000 otherwise. For Serial and Text it is 0 exactly
    when the masked index has no entry (25..31) or is 0, whose entry is
    itself 0: there 0 does not tell an unknown index from index 0. *)
Theorem X3_rate_zero (i sp : Z) :
  0 <= GetRate i sp <= 3000000 /\
  (IsAudio sp = true ->
   (GetRate i sp = 0 <-> 21 <= Z.land i SRMask) /\
   (Z.land i SRMask <= 20 -> 6000 <= GetRate i sp <= 705600))
  /\
  (IsSerial sp || IsText sp = true ->
   (GetRate i sp = 0 <-> Z.land i SRMask = 0 \/ 25 <= Z.land i SRMask) /\
   BPSList !! 0 = Some 0).
Proof.
  pose proof (land_SRMask_range i) as Hk. unfold GetRate.
  set (k := Z.land i SRMask) in *. clearbody k.
  split; [|split].
  - destruct (IsAudio sp); [|destruct (IsSerial sp || IsText sp)];
      [| |lia]; index_cases k Hc; vm_compute; split; discriminate.
  - intros ->. index_cases k Hc; vm_compute;
      (split; [split; intros; first [discriminate | reflexivity | contradiction]
              | intros; split; first [discriminate | contradiction]]).
  - intros Hst. rewrite (serial_or_text_not_audio sp Hst), Hst.
    split; [|reflexivity].
    index_cases k Hc;
      (split; [ intros Hz; first [ left; reflexivity | right; lia
                                 | vm_compute in Hz; discriminate Hz ]
              | intros [Hz|Hz]; first [ reflexivity | lia ] ]).
Qed.

(** X4. [DataType.Size] looks only at the low three bits, so it can be
    applied to the raw format byte of a header; it is one of 0, 1, 2, 4
    and 8, and it is 0 exactly for the three packed types (24-bit, 12-bit
    and 10-bit). *)
Theorem X4_data_type_size (dt : Z) (h : Header) :
  DataType_Size dt = DataType_Size (Z.land dt DataTypeMask) /\
  DataType_Size (FormatBit h) = DataType_Size (DataType h) /\
  (DataType_Size dt = 0 \/ DataType_Size dt = 1 \/ DataType_Size dt = 2
   \/ DataType_Size dt = 4 \/ DataType_Size dt = 8) /\
  (DataType_Size dt = 0 <->
   Z.land dt DataTypeMask = DataTypeINT24
   \/ Z.land dt DataTypeMask = DataType12BIT
   \/ Z.land dt DataTypeMask = DataType10BIT).
Proof.
  assert (forall x, Z.land (Z.land x DataTypeMask) DataTypeMask
                    = Z.land x DataTypeMask) as Hidem
    by (intros x; now rewrite <- Z.land_assoc).
  pose proof (land_DataTypeMask_range dt) as Hk.
  unfold DataType_Size, DataType. rewrite !Hidem.
  set (k := Z.land dt DataTypeMask) in *. clearbody k.
  unfold DataTypeINT24, DataType12BIT, DataType10BIT.
  split; [reflexivity|]. split; [reflexivity|].
  assert (k = 0 \/ k = 1 \/ k = 2 \/ k = 3 \/ k = 4 \/ k = 5 \/ k = 6 \/ k = 7)
    as Hc by lia.
  repeat (destruct Hc as [Hc|Hc]; [subst k|]); [..|subst k]; cbn;
    (split; [lia | split; [intros; lia | intros; lia]]).
Qed.

End ConstantsExtras.

(** ** The format bytes of a header *)

Section FormatExtras.
Import Binary BinaryFacts.

Lemma byte_cases2 (P : Z -> Z -> bool) :
  forallb (fun a => forallb (P a) (map Z.of_nat (seq 0 256)))
          (map Z.of_nat (seq 0 256)) = true ->
  forall a b : Z, is_uint8 a -> is_uint8 b -> P a b = true.
Proof.
  intros Hall a b Ha Hb.
  pose proof (byte_cases _ Hall a Ha) as Hrow. cbv beta in Hrow.
  exact (byte_cases _ Hrow b Hb).
Qed.

(** The first format byte [SetAudioFormat] computes. *)
Lemma audio_FormatSR_byte (sr : Z) :
  is_uint8 sr ->
  let b := Z.lor (Z.land ProtocolAudio ProtocolMask) (Z.land sr SRMask) in
  Z.land b ProtocolMask = ProtocolAudio /\
  Z.land b SRMask = Z.land sr SRMask /\ is_uint8 b.
Proof.
  intros Hsr b.
  pose proof (byte_cases
    (fun sr =>
       let b := Z.lor (Z.land ProtocolAudio ProtocolMask) (Z.land sr SRMask) in
       (Z.land b ProtocolMask =? ProtocolAudio)
       && (Z.land b SRMask =? Z.land sr SRMask)
       && (0 <=? b) && (b <? 256)) ltac:(vm_compute; reflexivity) sr Hsr) as Hb.
  cbv beta zeta in Hb. fold b in Hb.
  apply andb_true_iff in Hb as [Hb H4]. apply andb_true_iff in Hb as [Hb H3].
  apply andb_true_iff in Hb as [H1 H2].
  apply Z.eqb_eq in H1, H2. apply Z.leb_le in H3. apply Z.ltb_lt in H4.
  unfold is_uint8. auto.
Qed.

(** The second format byte [SetAudioFormat] computes. *)
Lemma audio_FormatBit_byte (dt codec : Z) :
  is_uint8 dt -> is_uint8 codec ->
  let b := Z.ldiff (Z.lor (Z.land codec CodecMask) (Z.land dt DataTypeMask))
                   0x08 in
  Z.land b DataTypeMask = Z.land dt DataTypeMask /\
  Z.land b CodecMask = Z.land codec CodecMask /\
  Z.testbit b 3 = false /\ is_uint8 b.
Proof.
  intros Hdt Hcodec b.
  pose proof (byte_cases2
    (fun dt codec =>
       let b := Z.ldiff (Z.lor (Z.land codec CodecMask)
                               (Z.land dt DataTypeMask)) 0x08 in
       (Z.land b DataTypeMask =? Z.land dt DataTypeMask)
       && (Z.land b CodecMask =? Z.land codec CodecMask)
       && negb (Z.testbit b 3)
       && (0 <=? b) && (b <? 256)) ltac:(vm_compute; reflexivity)
    dt codec Hdt Hcodec) as Hb.
  cbv beta zeta in Hb. fold b in Hb.
  apply andb_true_iff in Hb as [Hb H5]. apply andb_true_iff in Hb as [Hb H4].
  apply andb_true_iff in Hb as [Hb H3]. apply andb_true_iff in Hb as [H1 H2].
  apply Z.eqb_eq in H1, H2. apply negb_true_iff in H3.
  apply Z.leb_le in H4. apply Z.ltb_lt in H5.
  unfold is_uint8. auto.
Qed.

(** X5. [SetAudioFormat]: afterwards the header is an Audio header, its
    accessors return the rate index, data type and codec that were passed
    (each cut to its bit field), the reserved bit 3 of the second format
    byte is clear, both format bytes are bytes, and no other field has
    changed. The rate of the header is the Audio rate of the index. *)
Theorem X5_SetAudioFormat (h : Header) (srIndex dataType codec : Z) :
  is_uint8 srIndex -> is_uint8 dataType -> is_uint8 codec ->
  let h' := SetAudioFormat h srIndex dataType codec in
  SubProtocol h' = ProtocolAudio /\
  IsAudio (FormatSR h') = true /\
  SRIndex h' = Z.land srIndex SRMask /\
  DataType h' = Z.land dataType DataTypeMask /\
  CodecType h' = Z.land codec CodecMask /\
  Z.testbit (FormatBit h') 3 = false /\
  is_uint8 (FormatSR h') /\ is_uint8 (FormatBit h') /\
  GetRate (FormatSR h') (FormatSR h') = GetRate srIndex ProtocolAudio /\
  VBAN h' = VBAN h /\ FormatNbs h' = FormatNbs h /\
  FormatNbc h' = FormatNbc h /\ StreamName h' = StreamName h /\
  NuFrame h' = NuFrame h.
Proof.
  intros Hsr Hdt Hcodec h'.
  destruct (audio_FormatSR_byte srIndex Hsr) as (S1 & S2 & S3).
  destruct (audio_FormatBit_byte dataType codec Hdt Hcodec)
    as (B1 & B2 & B3 & B4).
  subst h'. unfold SetAudioFormat, SubProtocol, SRIndex, DataType, CodecType,
    IsAudio. header_fields.
  repeat split; try assumption; try apply S3; try apply B4.
  - rewrite S1. reflexivity.
  - unfold GetRate, IsAudio. rewrite S1, S2. reflexivity.
Qed.

Lemma X5_SetAudioFormat_witness :
  let h' := SetAudioFormat sample_header 3 1 0 in
  SubProtocol h' = ProtocolAudio /\
  IsAudio (FormatSR h') = true /\
  SRIndex h' = Z.land 3 SRMask /\
  DataType h' = Z.land 1 DataTypeMask /\
  CodecType h' = Z.land 0 CodecMask /\
  Z.testbit (FormatBit h') 3 = false /\
  is_uint8 (FormatSR h') /\ is_uint8 (FormatBit h') /\
  GetRate (FormatSR h') (FormatSR h') = GetRate 3 ProtocolAudio /\
  VBAN h' = VBAN sample_header /\ FormatNbs h' = FormatNbs sample_header /\
  FormatNbc h' = FormatNbc sample_header /\
  StreamName h' = StreamName sample_header /\
  NuFrame h' = NuFrame sample_header.
Proof.
  apply (X5_SetAudioFormat sample_header 3 1 0); solve_range.
Defined.

(** X6. The accessors split each format byte without loss: the first is
    the sub-protocol plus the rate index, the sub-protocol being a
    multiple of 32 and the index below 32; the second is the codec plus
    the data type plus the reserved bit 3, the codec being a multiple of
    16 and the data type below 8. *)
Theorem X6_format_bytes_split (h : Header) :
  is_uint8 (FormatSR h) -> is_uint8 (FormatBit h) ->
  FormatSR h = SubProtocol h + SRIndex h /\
  FormatSR h = Z.lor (SubProtocol h) (SRIndex h) /\
  SubProtocol h mod 32 = 0 /\ 0 <= SRIndex h < 32 /\
  FormatBit h
  = CodecType h + DataType h + (if Z.testbit (FormatBit h) 3 then 8 else 0) /\
  CodecType h mod 16 = 0 /\ 0 <= DataType h < 8.
Proof.
  intros Hsr Hbit. unfold SubProtocol, SRIndex, CodecType, DataType.
  pose proof (byte_cases
    (fun b => (b =? Z.land b ProtocolMask + Z.land b SRMask)
              && (b =? Z.lor (Z.land b ProtocolMask) (Z.land b SRMask))
              && (Z.land b ProtocolMask mod 32 =? 0)
              && (0 <=? Z.land b SRMask) && (Z.land b SRMask <? 32))
    ltac:(vm_compute; reflexivity) _ Hsr) as H1.
  pose proof (byte_cases
    (fun b => (b =? Z.land b CodecMask + Z.land b DataTypeMask
                    + (if Z.testbit b 3 then 8 else 0))
              && (Z.land b CodecMask mod 16 =? 0)
              && (0 <=? Z.land b DataTypeMask) && (Z.land b DataTypeMask <? 8))
    ltac:(vm_compute; reflexivity) _ Hbit) as H2.
  cbv beta in H1, H2.
  repeat (apply andb_true_iff in H1 as [H1 ?]).
  repeat (apply andb_true_iff in H2 as [H2 ?]).
  repeat match goal with
         | E : (_ =? _) = true |- _ => apply Z.eqb_eq in E
         | E : (_ <=? _) = true |- _ => apply Z.leb_le in E
         | E : (_ <? _) = true |- _ => apply Z.ltb_lt in E
         end.
  repeat split; assumption.
Qed.

Lemma X6_format_bytes_split_witness :
  FormatSR sample_header = SubProtocol sample_header + SRIndex sample_header /\
  FormatSR sample_header
  = Z.lor (SubProtocol sample_header) (SRIndex sample_header) /\
  SubProtocol sample_header mod 32 = 0 /\ 0 <= SRIndex sample_header < 32 /\
  FormatBit sample_header
  = CodecType sample_header + DataType sample_header
    + (if Z.testbit (FormatBit sample_header) 3 then 8 else 0) /\
  CodecType sample_header mod 16 = 0 /\ 0 <= DataType sample_header < 8.
Proof. apply (X6_format_bytes_split sample_header); solve_range. Defined.

End FormatExtras.

(** ** Stream names, in general *)

Section StreamNameExtras.

Lemma bytes_of_string_bytes (s : string) : Forall is_uint8 (bytes_of_string s).
Proof.
  unfold bytes_of_string. apply Forall_map, Forall_forall. intros c _.
  pose proof (N_ascii_bounded c). unfold is_uint8. cbn. lia.
Qed.

Lemma bytes_of_string_of_bytes (l : list Z) :
  Forall is_uint8 l -> bytes_of_string (string_of_bytes l) = l.
Proof.
  intros Hl. unfold bytes_of_string, string_of_bytes.
  rewrite list_ascii_of_string_of_list_ascii, map_map.
  induction Hl as [|x l Hx Hl IH]; [reflexivity|].
  cbn [map]. rewrite IH. f_equal. unfold is_uint8 in Hx.
  rewrite N_ascii_embedding by lia. lia.
Qed.

Lemma IndexByte_ge (l : list Z) (c : Z) : -1 <= IndexByte l c.
Proof.
  induction l as [|x l IH]; cbn [IndexByte]; [lia|].
  destruct (x =? c); [lia|]. destruct (IndexByte l c =? -1); lia.
Qed.

(** Cutting at the index [bytes.IndexByte] finds, or not at all when it
    finds none, gives the bytes before the first zero. *)
Lemma take_IndexByte (l : list Z) :
  take (Z.to_nat (if IndexByte l 0 =? -1 then Z.of_nat (length l)
                  else IndexByte l 0)) l
  = until_zero l.
Proof.
  induction l as [|x l IH]; [reflexivity|].
  cbn [IndexByte until_zero length]. destruct (x =? 0); [reflexivity|].
  pose proof (IndexByte_ge l 0) as Hge.
  destruct (Z.eq_dec (IndexByte l 0) (-1)) as [E|E].
  - rewrite E in IH |- *. change (-1 =? -1) with true in IH |- *.
    cbv iota in IH |- *. change (-1 =? -1) with true.
    cbv iota. rewrite Nat2Z.id in IH |- *. cbn [take]. now rewrite IH.
  - rewrite (proj2 (Z.eqb_neq _ (-1)) E) in IH |- *.
    rewrite (proj2 (Z.eqb_neq _ (-1))) by lia.
    rewrite Z2Nat.inj_add by lia. change (Z.to_nat 1) with 1%nat.
    rewrite Nat.add_1_r. cbn [take]. now rewrite IH.
Qed.

Lemma GetStreamName_until_zero (h : Header) :
  length (StreamName h) = 16%nat ->
  GetStreamName h = string_of_bytes (until_zero (StreamName h)).
Proof.
  intros Hname. unfold GetStreamName, MaxStreamNameLen.
  rewrite <- take_IndexByte, Hname. reflexivity.
Qed.

Lemma until_zero_prefix (l : list Z) :
  exists rest, l = until_zero l ++ rest /\
               (rest = [] \/ exists rest', rest = 0 :: rest').
Proof.
  induction l as [|x l (rest & IH & Hrest)].
  - exists []. split; [reflexivity | now left].
  - cbn [until_zero]. destruct (Z.eqb_spec x 0) as [->|Hx].
    + exists (0 :: l). split; [reflexivity | right; eauto].
    + exists rest. split; [cbn [app]; now f_equal | exact Hrest].
Qed.

Lemma until_zero_nonzero (l : list Z) : Forall (fun x => x <> 0) (until_zero l).
Proof.
  induction l as [|x l IH]; [constructor|].
  cbn [until_zero]. destruct (Z.eqb_spec x 0); [constructor|].
  now constructor.
Qed.

Lemma until_zero_length (l : list Z) : (length (until_zero l) <= length l)%nat.
Proof.
  induction l as [|x l IH]; [reflexivity|].
  cbn [until_zero]. destruct (x =? 0); cbn [length]; lia.
Qed.

Lemma until_zero_bytes (l : list Z) :
  Forall is_uint8 l -> Forall is_uint8 (until_zero l).
Proof.
  induction 1 as [|x l Hx Hl IH]; [constructor|].
  cbn [until_zero]. destruct (x =? 0); [constructor | now constructor].
Qed.

Lemma until_zero_padding (l : list Z) (k : nat) :
  until_zero (l ++ replicate k 0) = until_zero l.
Proof.
  induction l as [|x l IH].
  - destruct k; reflexivity.
  - cbn [app until_zero]. now rewrite IH.
Qed.

Lemma SetStreamName_eq (h : Header) (name : string) :
  length (StreamName h) = 16%nat ->
  SetStreamName h name
  = set_StreamName h
      (take 16 (bytes_of_string name)
         ++ replicate (16 - length (bytes_of_string name)) 0).
Proof.
  intros Hname. rewrite <- (StreamName_SetStreamName h name Hname).
  unfold SetStreamName. destruct (copy _ _) as [a l]. reflexivity.
Qed.

Lemma length_StreamName_SetStreamName (h : Header) (name : string) :
  length (StreamName h) = 16%nat ->
  length (StreamName (SetStreamName h name)) = 16%nat.
Proof.
  intros Hname. rewrite StreamName_SetStreamName by assumption.
  rewrite length_app, length_take, length_replicate. lia.
Qed.

(** X8. [GetStreamName] on any content of the name field: the bytes of
    the result are the bytes of the field before its first zero byte (all
    16 when there is none); so the result has at most 16 bytes, none of
    them zero, is a prefix of the field, and what follows it in the field,
    if anything, starts with a zero byte. *)
Theorem X8_GetStreamName_any_field (h : Header) :
  wf_Header h ->
  bytes_of_string (GetStreamName h) = until_zero (StreamName h) /\
  (length (bytes_of_string (GetStreamName h)) <= 16)%nat /\
  Forall (fun x => x <> 0) (bytes_of_string (GetStreamName h)) /\
  exists rest,
    StreamName h = bytes_of_string (GetStreamName h) ++ rest /\
    (rest = [] \/ exists rest', rest = 0 :: rest').
Proof.
  intros Hwf. pose proof (wf_StreamName_len _ Hwf) as Hname.
  change (Z.to_nat MaxStreamNameLen) with 16%nat in Hname.
  rewrite GetStreamName_until_zero by assumption.
  rewrite bytes_of_string_of_bytes
    by (apply until_zero_bytes, (wf_StreamName_bytes _ Hwf)).
  split; [reflexivity|]. split; [|split].
  - rewrite <- Hname. apply until_zero_length.
  - apply until_zero_nonzero.
  - apply until_zero_prefix.
Qed.

Lemma X8_GetStreamName_any_field_witness :
  bytes_of_string (GetStreamName sample_header)
  = until_zero (StreamName sample_header) /\
  (length (bytes_of_string (GetStreamName sample_header)) <= 16)%nat /\
  Forall (fun x => x <> 0) (bytes_of_string (GetStreamName sample_header)) /\
  exists rest,
    StreamName sample_header
    = bytes_of_string (GetStreamName sample_header) ++ rest /\
    (rest = [] \/ exists rest', rest = 0 :: rest').
Proof. apply (X8_GetStreamName_any_field sample_header). solve_wf_Header. Defined.

(** X9. [SetStreamName] replaces the name field whole and nothing else:
    setting a name and then another is setting the other; the other
    fields are untouched and a well-formed header stays well-formed. *)
Theorem X9_SetStreamName_overwrites (h : Header) (name1 name2 : string) :
  wf_Header h ->
  SetStreamName (SetStreamName h name1) name2 = SetStreamName h name2 /\
  wf_Header (SetStreamName h name1) /\
  VBAN (SetStreamName h name1) = VBAN h /\
  FormatSR (SetStreamName h name1) = FormatSR h /\
  FormatNbs (SetStreamName h name1) = FormatNbs h /\
  FormatNbc (SetStreamName h name1) = FormatNbc h /\
  FormatBit (SetStreamName h name1) = FormatBit h /\
  NuFrame (SetStreamName h name1) = NuFrame h.
Proof.
  intros Hwf. pose proof (wf_StreamName_len _ Hwf) as Hname.
  change (Z.to_nat MaxStreamNameLen) with 16%nat in Hname.
  pose proof (length_StreamName_SetStreamName h name1 Hname) as Hname1.
  split.
  - rewrite (SetStreamName_eq _ name2 Hname1), (SetStreamName_eq h name2 Hname).
    rewrite (SetStreamName_eq h name1 Hname). reflexivity.
  - rewrite (SetStreamName_eq h name1 Hname). header_fields.
    split; [|repeat split; reflexivity].
    destruct Hwf. constructor; header_fields; try assumption.
    + rewrite length_app, length_take, length_replicate.
      change (Z.to_nat MaxStreamNameLen) with 16%nat. lia.
    + apply Forall_app. split.
      * apply Forall_take, bytes_of_string_bytes.
      * apply Forall_replicate. unfold is_uint8. lia.
Qed.

Lemma X9_SetStreamName_overwrites_witness :
  SetStreamName (SetStreamName sample_header "Mic") "Line"
  = SetStreamName sample_header "Line" /\
  wf_Header (SetStreamName sample_header "Mic") /\
  VBAN (SetStreamName sample_header "Mic") = VBAN sample_header /\
  FormatSR (SetStreamName sample_header "Mic") = FormatSR sample_header /\
  FormatNbs (SetStreamName sample_header "Mic") = FormatNbs sample_header /\
  FormatNbc (SetStreamName sample_header "Mic") = FormatNbc sample_header /\
  FormatBit (SetStreamName sample_header "Mic") = FormatBit sample_header /\
  NuFrame (SetStreamName sample_header "Mic") = NuFrame sample_header.
Proof.
  apply (X9_SetStreamName_overwrites sample_header "Mic" "Line").
  solve_wf_Header.
Defined.

(** X10. Setting any name and reading it back gives the name cut at its
    first zero byte, or at 16 bytes if that comes first, whatever the
    field held before. *)
Theorem X10_GetStreamName_SetStreamName_any (h : Header) (name : string) :
  wf_Header h ->
  GetStreamName (SetStreamName h name)
  = string_of_bytes (until_zero (take 16 (bytes_of_string name))).
Proof.
  intros Hwf. pose proof (wf_StreamName_len _ Hwf) as Hname.
  change (Z.to_nat MaxStreamNameLen) with 16%nat in Hname.
  rewrite GetStreamName_until_zero
    by (now apply length_StreamName_SetStreamName).
  rewrite StreamName_SetStreamName by assumption.
  now rewrite until_zero_padding.
Qed.

Lemma X10_GetStreamName_SetStreamName_any_witness :
  GetStreamName (SetStreamName sample_header name_with_zero)
  = string_of_bytes (until_zero (take 16 (bytes_of_string name_with_zero))).
Proof.
  apply (X10_GetStreamName_SetStreamName_any sample_header name_with_zero).
  solve_wf_Header.
Defined.

End StreamNameExtras.

(** ** The header on the wire *)

Section WireExtras.
Import Binary BinaryFacts.

Lemma uint8_byte (x : Z) : is_uint8 (uint8 x).
Proof. unfold is_uint8, uint8. apply Z.mod_pos_bound. lia. Qed.

Lemma PutUint32_bytes (v : Z) : Forall is_uint8 (PutUint32 v).
Proof. unfold PutUint32. repeat constructor; apply uint8_byte. Qed.

(** Or-ing a shifted value onto a smaller one adds them. *)
Lemma lor_shiftl_add (a x k : Z) :
  0 <= k -> 0 <= a < 2 ^ k -> Z.lor a (Z.shiftl x k) = a + x * 2 ^ k.
Proof.
  intros Hk Ha. rewrite <- Z.shiftl_mul_pow2 by assumption.
  symmetry. apply Z.add_nocarry_lor. apply Z.bits_inj'. intros i Hi.
  rewrite Z.land_spec, Z.bits_0.
  destruct (Z.lt_ge_cases i k) as [Hlt|Hge].
  - rewrite Z.shiftl_spec_low by assumption. apply andb_false_r.
  - rewrite <- (Z.mod_small a (2 ^ k)) by assumption.
    now rewrite Z.mod_pow2_bits_high by lia.
Qed.

Lemma Uint32_sum (a b c d : Z) :
  is_uint8 a -> is_uint8 b -> is_uint8 c -> is_uint8 d ->
  Uint32 [a; b; c; d] = a + b * 2 ^ 8 + c * 2 ^ 16 + d * 2 ^ 24.
Proof.
  unfold is_uint8, Uint32. intros Ha Hb Hc Hd. cbn [nth].
  rewrite (lor_shiftl_add a b 8) by lia.
  rewrite (lor_shiftl_add _ c 16) by lia.
  rewrite (lor_shiftl_add _ d 24) by lia. reflexivity.
Qed.

(** Writing the word read from four bytes gives the four bytes. *)
Lemma PutUint32_Uint32 (a b c d : Z) :
  is_uint8 a -> is_uint8 b -> is_uint8 c -> is_uint8 d ->
  PutUint32 (Uint32 [a; b; c; d]) = [a; b; c; d].
Proof.
  intros Ha Hb Hc Hd. rewrite Uint32_sum by assumption.
  unfold is_uint8 in *. unfold PutUint32, uint8.
  rewrite !Z.shiftr_div_pow2 by lia.
  change (2 ^ 8) with 256. change (2 ^ 16) with 65536.
  change (2 ^ 24) with 16777216.
  repeat f_equal; Z.div_mod_to_equations; lia.
Qed.

Lemma nth_byte (l : list Z) (k : nat) : Forall is_uint8 l -> is_uint8 (nth k l 0).
Proof.
  intros Hl. destruct (Nat.lt_ge_cases k (length l)) as [Hlt|Hge].
  - now apply Forall_nth.
  - rewrite nth_overflow by assumption. unfold is_uint8. lia.
Qed.

Lemma Uint32_range (l : list Z) : Forall is_uint8 l -> is_uint32 (Uint32 l).
Proof.
  intros Hl.
  pose proof (nth_byte l 0 Hl) as H0. pose proof (nth_byte l 1 Hl) as H1.
  pose proof (nth_byte l 2 Hl) as H2. pose proof (nth_byte l 3 Hl) as H3.
  change (Uint32 l) with (Uint32 [nth 0 l 0; nth 1 l 0; nth 2 l 0; nth 3 l 0]).
  rewrite Uint32_sum by assumption. unfold is_uint8, is_uint32 in *. lia.
Qed.

(** Where each field lies in the output of [Header.MarshalBinary]. *)
Lemma Header_MarshalBinary_layout (h : Header) :
  length (StreamName h) = 16%nat ->
  let bs := fst (Header_MarshalBinary h) in
  take 4 bs = PutUint32 (VBAN h) /\
  nth 4 bs 0 = FormatSR h /\ nth 5 bs 0 = FormatNbs h /\
  nth 6 bs 0 = FormatNbc h /\ nth 7 bs 0 = FormatBit h /\
  take 16 (drop 8 bs) = StreamName h /\
  drop 24 bs = PutUint32 (NuFrame h).
Proof.
  intros Hname bs. subst bs. rewrite Header_MarshalBinary_ok by assumption.
  cbn [fst]. generalize (PutUint32 (NuFrame h)). intros tail.
  unfold PutUint32. cbn [app nth firstn skipn].
  repeat split.
  - now apply take_app_length'.
  - now apply drop_app_length'.
Qed.

(** X7. Setting the samples per frame, or the channels, to [n] in 1..255
    succeeds; the accessor then returns [n], the byte at offset 5
    (samples) or 6 (channels) of the marshalled header is [n-1], the other
    count is unaffected and the header stays well-formed. *)
Theorem X7_samples_channels_on_the_wire (h : Header) (n : Z) :
  wf_Header h -> 1 <= n <= 255 ->
  let hs := fst (SetSamplesPerFrame h n) in
  let hc := fst (SetChannels h n) in
  (snd (SetSamplesPerFrame h n) = None /\ SamplesPerFrame hs = n /\
   Channels hs = Channels h /\ wf_Header hs /\
   nth 5 (fst (Header_MarshalBinary hs)) 0 = n - 1)
  /\
  (snd (SetChannels h n) = None /\ Channels hc = n /\
   SamplesPerFrame hc = SamplesPerFrame h /\ wf_Header hc /\
   nth 6 (fst (Header_MarshalBinary hc)) 0 = n - 1).
Proof.
  intros Hwf Hn hs hc. subst hs hc.
  pose proof (wf_StreamName_len _ Hwf) as Hname.
  change (Z.to_nat MaxStreamNameLen) with 16%nat in Hname.
  unfold SetSamplesPerFrame, SetChannels.
  rewrite (proj2 (Z.eqb_neq n 0)) by lia. cbn [fst snd].
  unfold uint8. rewrite (Z.mod_small (n - 1)) by lia.
  split.
  - destruct (Header_MarshalBinary_layout (set_FormatNbs h (n - 1)) Hname)
      as (_ & _ & L5 & _).
    unfold SamplesPerFrame, Channels, uint8. header_fields.
    rewrite (Z.mod_small (n - 1 + 1)) by lia.
    split; [reflexivity|]. split; [lia|]. split; [reflexivity|].
    split; [|exact L5].
    destruct Hwf. constructor; header_fields; try assumption.
    unfold is_uint8. lia.
  - destruct (Header_MarshalBinary_layout (set_FormatNbc h (n - 1)) Hname)
      as (_ & _ & _ & L6 & _).
    unfold SamplesPerFrame, Channels, uint8. header_fields.
    rewrite (Z.mod_small (n - 1 + 1)) by lia.
    split; [reflexivity|]. split; [lia|]. split; [reflexivity|].
    split; [|exact L6].
    destruct Hwf. constructor; header_fields; try assumption.
    unfold is_uint8. lia.
Qed.

Lemma X7_samples_channels_on_the_wire_witness :
  let hs := fst (SetSamplesPerFrame sample_header 128) in
  let hc := fst (SetChannels sample_header 128) in
  (snd (SetSamplesPerFrame sample_header 128) = None /\
   SamplesPerFrame hs = 128 /\
   Channels hs = Channels sample_header /\ wf_Header hs /\
   nth 5 (fst (Header_MarshalBinary hs)) 0 = 128 - 1)
  /\
  (snd (SetChannels sample_header 128) = None /\ Channels hc = 128 /\
   SamplesPerFrame hc = SamplesPerFrame sample_header /\ wf_Header hc /\
   nth 6 (fst (Header_MarshalBinary hc)) 0 = 128 - 1).
Proof.
  apply (X7_samples_channels_on_the_wire sample_header 128);
    [solve_wf_Header | lia].
Defined.

(** X11. The wire layout of a header: [Header.MarshalBinary] of a
    well-formed header never fails and gives 28 bytes, each in 0..255:
    the magic little-endian at offsets 0..3, the two format bytes and the
    two count bytes at offsets 4, 5, 6, 7 (FormatSR, FormatNbs,
    FormatNbc, FormatBit), the 16 name bytes at offsets 8..23 and the
    frame counter little-endian at offsets 24..27. With the protocol's
    magic the first four bytes are the ASCII letters VBAN. *)
Theorem X11_header_wire_layout (h : Header) :
  wf_Header h ->
  let bs := fst (Header_MarshalBinary h) in
  snd (Header_MarshalBinary h) = None /\
  length bs = 28%nat /\ Forall is_uint8 bs /\
  Uint32 (take 4 bs) = VBAN h /\
  nth 4 bs 0 = FormatSR h /\ nth 5 bs 0 = FormatNbs h /\
  nth 6 bs 0 = FormatNbc h /\ nth 7 bs 0 = FormatBit h /\
  take 16 (drop 8 bs) = StreamName h /\
  Uint32 (drop 24 bs) = NuFrame h /\
  (VBAN h = HeaderMagic -> take 4 bs = bytes_of_string "VBAN").
Proof.
  intros Hwf bs. pose proof (wf_StreamName_len _ Hwf) as Hname.
  change (Z.to_nat MaxStreamNameLen) with 16%nat in Hname.
  destruct (Header_MarshalBinary_layout h Hname)
    as (L0 & L4 & L5 & L6 & L7 & L8 & L24). fold bs in L0, L4, L5, L6, L7, L8, L24.
  split; [now rewrite Header_MarshalBinary_ok|].
  split; [now apply length_Header_MarshalBinary|].
  split.
  { subst bs. rewrite Header_MarshalBinary_ok by assumption. cbn [fst].
    destruct Hwf. repeat (apply Forall_app; split);
      auto using PutUint32_bytes. }
  split; [rewrite L0; apply Uint32_PutUint32, (wf_VBAN _ Hwf)|].
  do 5 (split; [assumption|]).
  split; [rewrite L24; apply Uint32_PutUint32, (wf_NuFrame _ Hwf)|].
  intros Hmagic. rewrite L0, Hmagic. reflexivity.
Qed.

Lemma X11_header_wire_layout_witness :
  let bs := fst (Header_MarshalBinary sample_header) in
  snd (Header_MarshalBinary sample_header) = None /\
  length bs = 28%nat /\ Forall is_uint8 bs /\
  Uint32 (take 4 bs) = VBAN sample_header /\
  nth 4 bs 0 = FormatSR sample_header /\ nth 5 bs 0 = FormatNbs sample_header /\
  nth 6 bs 0 = FormatNbc sample_header /\ nth 7 bs 0 = FormatBit sample_header /\
  take 16 (drop 8 bs) = StreamName sample_header /\
  Uint32 (drop 24 bs) = NuFrame sample_header /\
  (VBAN sample_header = HeaderMagic -> take 4 bs = bytes_of_string "VBAN").
Proof. apply (X11_header_wire_layout sample_header). solve_wf_Header. Defined.

(** X12. When [Header.UnmarshalBinary] succeeds: exactly when the input
    has at least 28 bytes and the first four, little-endian, are the
    magic. The header it leaves then has the magic, depends neither on
    what the receiver held nor on the bytes after the 28th, and is
    well-formed when the input consists of bytes. *)
Theorem X12_header_decode_success (h : Header) (data : list Z) :
  wf_Header h ->
  (snd (Header_UnmarshalBinary h data) = None <->
   (28 <= length data)%nat /\ Uint32 (take 4 data) = HeaderMagic)
  /\
  (snd (Header_UnmarshalBinary h data) = None ->
   VBAN (fst (Header_UnmarshalBinary h data)) = HeaderMagic /\
   fst (Header_UnmarshalBinary h data)
   = fst (Header_UnmarshalBinary Header_zero (take 28 data)) /\
   (Forall is_uint8 data -> wf_Header (fst (Header_UnmarshalBinary h data)))).
Proof.
  intros Hwf. pose proof (wf_StreamName_len _ Hwf) as Hname.
  change (Z.to_nat MaxStreamNameLen) with 16%nat in Hname.
  destruct (Nat.lt_ge_cases (length data) 28) as [Hshort|Hlong].
  { rewrite Header_UnmarshalBinary_short by assumption. cbn [snd].
    split; [split; [discriminate | lia] | discriminate]. }
  destruct (Z.eq_dec (Uint32 (take 4 data)) HeaderMagic) as [Hm|Hm].
  2:{ rewrite Header_UnmarshalBinary_bad_magic by assumption. cbn [snd].
      split; [split; [discriminate | tauto] | discriminate]. }
  rewrite Header_UnmarshalBinary_good_magic by assumption. cbn [fst snd].
  split; [tauto|]. intros _. split; [reflexivity|]. split.
  - rewrite Header_UnmarshalBinary_good_magic;
      [|rewrite length_take; lia|now rewrite take_take|reflexivity].
    cbn [fst]. rewrite !nth_firstn. cbn [Nat.ltb Nat.leb].
    rewrite !skipn_firstn_comm, !take_take. reflexivity.
  - intros Hbytes. constructor; header_fields.
    + unfold is_uint32, HeaderMagic. lia.
    + now apply nth_byte.
    + now apply nth_byte.
    + now apply nth_byte.
    + now apply nth_byte.
    + rewrite length_take, length_drop.
      change (Z.to_nat MaxStreamNameLen) with 16%nat. lia.
    + now apply Forall_take, Forall_drop.
    + now apply Uint32_range, Forall_take, Forall_drop.
Qed.

Lemma X12_header_decode_success_witness :
  (snd (Header_UnmarshalBinary sample_header
          (fst (Header_MarshalBinary sample_header))) = None <->
   (28 <= length (fst (Header_MarshalBinary sample_header)))%nat /\
   Uint32 (take 4 (fst (Header_MarshalBinary sample_header))) = HeaderMagic)
  /\
  (snd (Header_UnmarshalBinary sample_header
          (fst (Header_MarshalBinary sample_header))) = None ->
   VBAN (fst (Header_UnmarshalBinary sample_header
                (fst (Header_MarshalBinary sample_header)))) = HeaderMagic /\
   fst (Header_UnmarshalBinary sample_header
          (fst (Header_MarshalBinary sample_header)))
   = fst (Header_UnmarshalBinary Header_zero
            (take 28 (fst (Header_MarshalBinary sample_header)))) /\
   (Forall is_uint8 (fst (Header_MarshalBinary sample_header)) ->
    wf_Header (fst (Header_UnmarshalBinary sample_header
                      (fst (Header_MarshalBinary sample_header)))))).
Proof.
  apply (X12_header_decode_success sample_header
           (fst (Header_MarshalBinary sample_header))).
  solve_wf_Header.
Defined.

(** A list of 28 bytes, spelled out. *)
Lemma list_of_length_28 (l : list Z) :
  length l = 28%nat ->
  exists a0 a1 a2 a3 sr nbs nbc bit name f0 f1 f2 f3,
    l = [a0; a1; a2; a3; sr; nbs; nbc; bit] ++ name ++ [f0; f1; f2; f3] /\
    length name = 16%nat.
Proof.
  intros Hl.
  do 8 (destruct l as [|? l]; [discriminate Hl|]).
  exists z, z0, z1, z2, z3, z4, z5, z6, (take 16 l).
  assert (length (drop 16 l) = 4%nat) as Hd
    by (rewrite length_drop; cbn [length] in Hl; lia).
  destruct (drop 16 l) as [|f0 [|f1 [|f2 [|f3 [|]]]]] eqn:E;
    try discriminate Hd.
  exists f0, f1, f2, f3. split.
  - cbn [app]. do 8 f_equal. now rewrite <- E, take_drop.
  - rewrite length_take. cbn [length] in Hl. lia.
Qed.

Lemma Header_MarshalBinary_UnmarshalBinary (h : Header) (data : list Z) :
  length (StreamName h) = 16%nat ->
  length data = 28%nat -> Forall is_uint8 data ->
  snd (Header_UnmarshalBinary h data) = None ->
  Header_MarshalBinary (fst (Header_UnmarshalBinary h data)) = (data, None).
Proof.
  intros Hname Hlen Hbytes Hok.
  destruct (Z.eq_dec (Uint32 (take 4 data)) HeaderMagic) as [Hm|Hm].
  2:{ rewrite Header_UnmarshalBinary_bad_magic in Hok by (assumption || lia).
      discriminate Hok. }
  rewrite Header_UnmarshalBinary_good_magic by (assumption || lia).
  destruct (list_of_length_28 data Hlen)
    as (a0 & a1 & a2 & a3 & sr & nbs & nbc & bit & name & f0 & f1 & f2 & f3
        & -> & Hn).
  cbn [fst app nth firstn skipn] in Hm |- *.
  rewrite drop_0, take_app_length', drop_app_length' by (symmetry; exact Hn).
  cbn [firstn].
  rewrite Header_MarshalBinary_ok by (header_fields; exact Hn).
  header_fields.
  cbn [app] in Hbytes.
  repeat match goal with
         | H : Forall _ (_ :: _) |- _ =>
             let Hx := fresh "Hx" in
             pose proof (Forall_inv H) as Hx; apply Forall_inv_tail in H
         end.
  apply Forall_app in Hbytes as [_ Hbytes].
  repeat match goal with
         | H : Forall _ (_ :: _) |- _ =>
             let Hx := fresh "Hx" in
             pose proof (Forall_inv H) as Hx; apply Forall_inv_tail in H
         end.
  rewrite <- Hm, !PutUint32_Uint32 by assumption. reflexivity.
Qed.

(** X13. Decoding then encoding: every input of exactly 28 bytes that
    [Header.UnmarshalBinary] accepts is what [Header.MarshalBinary] gives
    back for the decoded header, so the decoder drops no information and
    the encoder adds none. *)
Theorem X13_header_decode_encode (h : Header) (data : list Z) :
  wf_Header h ->
  length data = 28%nat -> Forall is_uint8 data ->
  snd (Header_UnmarshalBinary h data) = None ->
  Header_MarshalBinary (fst (Header_UnmarshalBinary h data)) = (data, None).
Proof.
  intros Hwf. apply Header_MarshalBinary_UnmarshalBinary.
  exact (wf_StreamName_len _ Hwf).
Qed.

Lemma X13_header_decode_encode_witness :
  Header_MarshalBinary
    (fst (Header_UnmarshalBinary Header_zero
            (fst (Header_MarshalBinary sample_header))))
  = (fst (Header_MarshalBinary sample_header), None).
Proof.
  apply (X13_header_decode_encode Header_zero
           (fst (Header_MarshalBinary sample_header))).
  - solve_wf_Header.
  - reflexivity.
  - vm_compute. repeat (constructor; [solve_range|]). constructor.
  - reflexivity.
Defined.

(** X14. [Header.MarshalBinary] is injective on well-formed headers: two
    headers with the same 28 bytes are the same header. *)
Theorem X14_header_marshal_injective (h1 h2 : Header) :
  wf_Header h1 -> wf_Header h2 ->
  fst (Header_MarshalBinary h1) = fst (Header_MarshalBinary h2) ->
  h1 = h2.
Proof.
  intros Hwf1 Hwf2 Heq.
  pose proof (wf_StreamName_len _ Hwf1) as Hn1.
  pose proof (wf_StreamName_len _ Hwf2) as Hn2.
  change (Z.to_nat MaxStreamNameLen) with 16%nat in Hn1, Hn2.
  destruct (Header_MarshalBinary_layout h1 Hn1)
    as (A0 & A4 & A5 & A6 & A7 & A8 & A24).
  destruct (Header_MarshalBinary_layout h2 Hn2)
    as (B0 & B4 & B5 & B6 & B7 & B8 & B24).
  rewrite Heq in A0, A4, A5, A6, A7, A8, A24.
  assert (VBAN h1 = VBAN h2) as E0.
  { rewrite <- (Uint32_PutUint32 (VBAN h1)), <- (Uint32_PutUint32 (VBAN h2))
      by (apply wf_VBAN; assumption). congruence. }
  assert (NuFrame h1 = NuFrame h2) as E24.
  { rewrite <- (Uint32_PutUint32 (NuFrame h1)),
      <- (Uint32_PutUint32 (NuFrame h2)) by (apply wf_NuFrame; assumption).
    congruence. }
  destruct h1, h2. header_fields. congruence.
Qed.

Lemma X14_header_marshal_injective_witness :
  SetStreamName (set_FormatNbs Header_zero 63) "Stream1"
  = set_FormatNbs (SetStreamName Header_zero "Stream1") 63.
Proof.
  apply (X14_header_marshal_injective
           (SetStreamName (set_FormatNbs Header_zero 63) "Stream1")
           (set_FormatNbs (SetStreamName Header_zero "Stream1") 63));
    [solve_wf_Header | solve_wf_Header | reflexivity].
Defined.

End WireExtras.

(** ** What the heap keeps *)

Module MemExtras.
Import Mem MemFacts.

Lemma length_poke (m : heap) (a i : nat) (bs : list Z) :
  length (poke m a i bs) = length m.
Proof. unfold poke. apply length_insert. Qed.

Lemma array_poke_other (m : heap) (a a' i : nat) (bs : list Z) :
  a' <> a -> array (poke m a i bs) a' = array m a'.
Proof. intros Hne. unfold poke, array. now rewrite list_lookup_insert_ne. Qed.

Lemma array_poke_same (m : heap) (a i : nat) (bs : list Z) :
  (a < length m)%nat ->
  array (poke m a i bs) a
  = take i (array m a) ++ bs ++ drop (i + length bs) (array m a).
Proof.
  intros Ha. unfold poke. unfold array at 1.
  now rewrite list_lookup_insert_eq by assumption.
Qed.

Lemma heap_kept_refl (b : option nat) (m : heap) : heap_kept b m m.
Proof. split; [reflexivity | auto]. Qed.

Lemma heap_kept_trans (b : option nat) (m1 m2 m3 : heap) :
  heap_kept b m1 m2 -> heap_kept b m2 m3 -> heap_kept b m1 m3.
Proof.
  intros [L12 K12] [L23 K23]. split; [lia|].
  intros a Ha Hb. rewrite K23 by (assumption || lia). now apply K12.
Qed.

Lemma heap_kept_weaken (b : option nat) (m m' : heap) :
  heap_kept None m m' -> heap_kept b m m'.
Proof. intros [L K]. split; [assumption|]. intros a Ha _. now apply K. Qed.

Lemma heap_kept_app (m extra : heap) : heap_kept None m (m ++ extra).
Proof.
  split; [rewrite length_app; lia|].
  intros a Ha _. unfold array. now rewrite lookup_app_l.
Qed.

Lemma heap_kept_poke (m : heap) (a i : nat) (bs : list Z) :
  heap_kept (Some a) m (poke m a i bs).
Proof.
  split; [now rewrite length_poke|].
  intros a' Ha' Hne. apply array_poke_other. congruence.
Qed.

(** A slice of a kept array shows the same bytes. *)
Lemma heap_kept_load (b : option nat) (m m' : heap) (s : slice) :
  heap_kept b m m' -> slice_ok m s -> b <> Some (arr s) ->
  (0 < len s)%nat -> load m' s = load m s.
Proof.
  intros [L K] Hok Hb Hlen.
  destruct (Nat.lt_ge_cases (arr s) (length m)) as [Hin|Hout].
  - unfold load. now rewrite K.
  - pose proof (slice_ok_outside m s Hok Hout). lia.
Qed.

(** [append] to a slice of the array allocated last leaves the arrays of
    before as they were, whichever way it goes. *)
Lemma append_fresh (m extra : heap) (s : slice) (bs : list Z) :
  extra <> [] -> arr s = (length m + length extra - 1)%nat ->
  exists (extra' : heap) (s' : slice),
    append (m ++ extra) s bs = (m ++ extra', s') /\
    extra' <> [] /\ arr s' = (length m + length extra' - 1)%nat.
Proof.
  intros Hne Harr. destruct (exists_last Hne) as (e0 & a & ->).
  rewrite length_app in Harr. cbn [length] in Harr.
  unfold append. destruct (len s + length bs <=? cap s)%nat.
  - exists (e0 ++ [take (off s + len s) a ++ bs
                     ++ drop (off s + len s + length bs) a]),
      (mkSlice (arr s) (off s) (len s + length bs) (cap s)).
    split; [|split].
    + f_equal. replace (arr s) with (length (m ++ e0))
        by (rewrite length_app; lia).
      rewrite (app_assoc m e0 [a]), poke_last.
      now rewrite <- app_assoc.
    + now destruct e0.
    + cbn [arr]. rewrite length_app. cbn [length]. lia.
  - exists ((e0 ++ [a]) ++ [load (m ++ e0 ++ [a]) s ++ bs]),
      (mkSlice (length (m ++ e0 ++ [a])) 0 (len s + length bs)
               (len s + length bs)).
    split; [|split].
    + now rewrite <- !app_assoc.
    + now destruct e0.
    + cbn [arr]. rewrite !length_app. cbn [length]. lia.
Qed.

End MemExtras.

(** ** Packets, beyond the round trip *)

Section PacketExtras.
Import Binary BinaryFacts Mem MemFacts MemExtras.

(** [Packet.MarshalBinary] only allocates, for any packet whatever. *)
Lemma Packet_MarshalBinary_frame (p : Packet) (m : heap) :
  exists extra : heap, fst (Packet_MarshalBinary p m) = m ++ extra.
Proof.
  unfold Packet_MarshalBinary.
  destruct (Header_MarshalBinary (Packet_Header p)) as [hb [e|]].
  { exists []. now rewrite app_nil_r. }
  destruct (Z.of_nat (len (Packet_Data p)) >? MaxPacketDataSize).
  { exists []. now rewrite app_nil_r. }
  unfold make.
  destruct (append_fresh m [replicate (length hb + len (Packet_Data p)) 0]
              (mkSlice (length m) 0 0 (length hb + len (Packet_Data p))) hb)
    as (extra1 & s1 & E1 & Hne1 & Harr1);
    [discriminate | cbn [arr length]; lia |].
  rewrite E1.
  destruct (append_fresh m extra1 s1 (load (m ++ extra1) (Packet_Data p))
              Hne1 Harr1) as (extra2 & s2 & E2 & _ & _).
  rewrite E2. cbn [fst]. eauto.
Qed.

(** So does the packet-level [UnmarshalBinary], for any input. *)
Lemma UnmarshalBinary_frame (data : slice) (m : heap) :
  exists extra : heap, fst (UnmarshalBinary data m) = m ++ extra.
Proof.
  unfold UnmarshalBinary.
  destruct (Z.of_nat (len data) <? HeaderSize).
  { exists []. now rewrite app_nil_r. }
  destruct (Z.of_nat (len data) >? MaxVBANPacketSize).
  { exists []. now rewrite app_nil_r. }
  destruct (Header_UnmarshalBinary _ _) as [h' [e|]].
  { exists []. now rewrite app_nil_r. }
  unfold make, copy. cbn [Packet_Data arr off len fst].
  rewrite poke_last. cbn [fst]. eauto.
Qed.

Lemma UnmarshalBinary_bad_magic (data : slice) (m : heap) :
  slice_ok m data -> (28 <= len data <= 1464)%nat ->
  Uint32 (take 4 (load m data)) <> HeaderMagic ->
  UnmarshalBinary data m
  = (m, (None,
         Some (ErrUnmarshalHeader
                 (ErrInvalidMagic HeaderMagic (Uint32 (take 4 (load m data))))))).
Proof.
  intros Hok Hlen Hmagic. pose proof (length_load m data Hok) as Hl.
  unfold UnmarshalBinary, HeaderSize, MaxVBANPacketSize, HeaderSize,
    MaxPacketDataSize.
  rewrite (proj2 (Z.ltb_ge _ _)) by lia. rewrite Zgtb_false by lia.
  cbn [Packet_Header Packet_Data]. change (Z.to_nat 28) with 28%nat.
  rewrite load_reslice_prefix by lia.
  rewrite Header_UnmarshalBinary_bad_magic.
  - now rewrite take_take.
  - rewrite length_take. lia.
  - now rewrite take_take.
Qed.

(** X15. [Packet.MarshalBinary], besides the round trip: a payload of
    more than 1436 bytes is refused with the data-size error and nothing
    is allocated; otherwise the output has 28 + payload bytes (at most
    1464), namely the marshalled header followed by the payload, every
    slice of before the call, the payload's included, shows the same
    bytes afterwards, and the output consists of bytes when the payload
    does. *)
Theorem X15_packet_marshal (p : Packet) (m : heap) :
  wf_Header (Packet_Header p) -> slice_ok m (Packet_Data p) ->
  ((1436 < len (Packet_Data p))%nat ->
   Packet_MarshalBinary p m
   = (m, (nil_slice,
          Some (ErrDataSize (Z.of_nat (len (Packet_Data p))) 1436))))
  /\
  ((len (Packet_Data p) <= 1436)%nat ->
   exists (m' : heap) (out : slice),
     Packet_MarshalBinary p m = (m', (out, None)) /\
     len out = (28 + len (Packet_Data p))%nat /\ (len out <= 1464)%nat /\
     load m' out
     = fst (Header_MarshalBinary (Packet_Header p)) ++ load m (Packet_Data p) /\
     (forall s : slice, slice_ok m s -> load m' s = load m s) /\
     (Forall is_uint8 (load m (Packet_Data p)) ->
      Forall is_uint8 (load m' out))).
Proof.
  intros Hwf Hok. pose proof (wf_StreamName_len _ Hwf) as Hname.
  change (Z.to_nat MaxStreamNameLen) with 16%nat in Hname.
  pose proof (length_Header_MarshalBinary _ Hname) as Hhb.
  pose proof (length_load m _ Hok) as Hpl.
  split.
  - intros Hbig. unfold Packet_MarshalBinary.
    rewrite Header_MarshalBinary_ok by assumption.
    unfold MaxPacketDataSize. now rewrite Zgtb_true by lia.
  - intros Hmax. rewrite Packet_MarshalBinary_ok by assumption.
    eexists _, _. split; [reflexivity|]. cbn [len].
    assert (load (m ++ [fst (Header_MarshalBinary (Packet_Header p))
                          ++ load m (Packet_Data p)])
              (mkSlice (length m) 0 (28 + len (Packet_Data p))
                       (28 + len (Packet_Data p)))
            = fst (Header_MarshalBinary (Packet_Header p))
                ++ load m (Packet_Data p)) as Hout.
    { apply load_whole; [apply array_app_new|].
      rewrite length_app, Hhb, Hpl. reflexivity. }
    split; [reflexivity|]. split; [lia|]. split; [exact Hout|]. split.
    + intros s Hs. now apply load_app.
    + intros Hbytes. rewrite Hout. apply Forall_app. split; [|assumption].
      rewrite Header_MarshalBinary_ok by assumption. cbn [fst].
      destruct Hwf. repeat (apply Forall_app; split);
        auto using PutUint32_bytes.
Qed.

Lemma X15_packet_marshal_witness :
  ((1436 < len (Packet_Data sample_packet))%nat ->
   Packet_MarshalBinary sample_packet sample_heap
   = (sample_heap,
      (nil_slice,
       Some (ErrDataSize (Z.of_nat (len (Packet_Data sample_packet))) 1436))))
  /\
  ((len (Packet_Data sample_packet) <= 1436)%nat ->
   exists (m' : heap) (out : slice),
     Packet_MarshalBinary sample_packet sample_heap = (m', (out, None)) /\
     len out = (28 + len (Packet_Data sample_packet))%nat /\
     (len out <= 1464)%nat /\
     load m' out
     = fst (Header_MarshalBinary (Packet_Header sample_packet))
         ++ load sample_heap (Packet_Data sample_packet) /\
     (forall s : slice, slice_ok sample_heap s ->
                        load m' s = load sample_heap s) /\
     (Forall is_uint8 (load sample_heap (Packet_Data sample_packet)) ->
      Forall is_uint8 (load m' out))).
Proof.
  apply (X15_packet_marshal sample_packet sample_heap).
  - solve_wf_Header.
  - split; cbn; lia.
Defined.

(** X16. When the packet-level [UnmarshalBinary] succeeds: exactly when
    the input has 28 to 1464 bytes and starts with the magic. The packet
    it returns then has a payload of the input's length less 28, which
    [NewPacket] accepts (at most 1436), and a header with the magic, the
    one [Header.UnmarshalBinary] reads from the first 28 bytes; the only
    change to the heap is the new payload array, so the input and every
    other slice show the same bytes as before. *)
Theorem X16_packet_decode_success (data : slice) (m : heap) :
  slice_ok m data ->
  (snd (snd (UnmarshalBinary data m)) = None <->
   (28 <= len data <= 1464)%nat /\
   Uint32 (take 4 (load m data)) = HeaderMagic)
  /\
  (forall (m' : heap) (q : Packet),
     UnmarshalBinary data m = (m', (Some q, None)) ->
     m' = m ++ [drop 28 (load m data)] /\
     len (Packet_Data q) = (len data - 28)%nat /\
     load m' (Packet_Data q) = drop 28 (load m data) /\
     NewPacket (Packet_Header q) (Packet_Data q) = (Some q, None) /\
     VBAN (Packet_Header q) = HeaderMagic /\
     Packet_Header q
     = fst (Header_UnmarshalBinary Header_zero (take 28 (load m data))) /\
     (forall s : slice, slice_ok m s -> load m' s = load m s)).
Proof.
  intros Hok. pose proof (length_load m data Hok) as Hl.
  destruct (Nat.lt_ge_cases (len data) 28) as [Hshort|Hlong].
  { assert (UnmarshalBinary data m
            = (m, (None, Some (ErrInsufficientPacket (Z.of_nat (len data)) 28))))
      as E.
    { unfold UnmarshalBinary, HeaderSize.
      now rewrite (proj2 (Z.ltb_lt _ _)) by lia. }
    rewrite E. cbn [snd]. split; [split; [discriminate | lia]|].
    intros m' q [=]. }
  destruct (Nat.lt_ge_cases 1464 (len data)) as [Hbig|Hmax].
  { assert (UnmarshalBinary data m
            = (m, (None, Some (ErrPacketSize (Z.of_nat (len data)) 1464))))
      as E.
    { unfold UnmarshalBinary, HeaderSize, MaxVBANPacketSize, HeaderSize,
        MaxPacketDataSize.
      rewrite (proj2 (Z.ltb_ge _ _)) by lia. now rewrite Zgtb_true by lia. }
    rewrite E. cbn [snd]. split; [split; [discriminate | lia]|].
    intros m' q [=]. }
  destruct (Z.eq_dec (Uint32 (take 4 (load m data))) HeaderMagic) as [Hm|Hm].
  2:{ rewrite UnmarshalBinary_bad_magic by (assumption || lia). cbn [snd].
      split; [split; [discriminate | tauto]|]. intros m' q [=]. }
  rewrite UnmarshalBinary_ok by (assumption || lia). cbn [snd].
  split; [split; [intros _; split; [lia | assumption] | reflexivity]|].
  intros m' q [= <- <-]. cbn [Packet_Data Packet_Header len].
  split; [reflexivity|]. split; [reflexivity|]. split.
  { apply load_whole; [apply array_app_new|]. rewrite length_drop. lia. }
  split.
  { unfold NewPacket, MaxPacketDataSize. cbn [len].
    now rewrite Zgtb_false by lia. }
  split.
  { rewrite Header_UnmarshalBinary_good_magic;
      [reflexivity|rewrite length_take; lia|now rewrite take_take|reflexivity]. }
  split; [reflexivity|].
  intros s Hs. now apply load_app.
Qed.

Lemma X16_packet_decode_success_witness :
  (snd (snd (UnmarshalBinary (mkSlice 0 0 28 28)
               [fst (Header_MarshalBinary sample_header)])) = None <->
   (28 <= 28 <= 1464)%nat /\
   Uint32 (take 4 (load [fst (Header_MarshalBinary sample_header)]
                        (mkSlice 0 0 28 28))) = HeaderMagic)
  /\
  (forall (m' : heap) (q : Packet),
     UnmarshalBinary (mkSlice 0 0 28 28)
       [fst (Header_MarshalBinary sample_header)] = (m', (Some q, None)) ->
     m' = [fst (Header_MarshalBinary sample_header)]
            ++ [drop 28 (load [fst (Header_MarshalBinary sample_header)]
                              (mkSlice 0 0 28 28))] /\
     len (Packet_Data q) = (28 - 28)%nat /\
     load m' (Packet_Data q)
     = drop 28 (load [fst (Header_MarshalBinary sample_header)]
                     (mkSlice 0 0 28 28)) /\
     NewPacket (Packet_Header q) (Packet_Data q) = (Some q, None) /\
     VBAN (Packet_Header q) = HeaderMagic /\
     Packet_Header q
     = fst (Header_UnmarshalBinary Header_zero
              (take 28 (load [fst (Header_MarshalBinary sample_header)]
                             (mkSlice 0 0 28 28)))) /\
     (forall s : slice,
        slice_ok [fst (Header_MarshalBinary sample_header)] s ->
        load m' s = load [fst (Header_MarshalBinary sample_header)] s)).
Proof.
  apply (X16_packet_decode_success (mkSlice 0 0 28 28)
           [fst (Header_MarshalBinary sample_header)]).
  split; vm_compute; lia.
Defined.

(** X17. Decoding then encoding a packet: when [UnmarshalBinary] accepts
    an input made of bytes, [MarshalBinary] of the packet it returns
    succeeds and its output shows the bytes of the input. *)
Theorem X17_packet_decode_encode (data : slice) (m m1 : heap) (q : Packet) :
  slice_ok m data -> Forall is_uint8 (load m data) ->
  UnmarshalBinary data m = (m1, (Some q, None)) ->
  exists (m2 : heap) (out : slice),
    Packet_MarshalBinary q m1 = (m2, (out, None)) /\
    load m2 out = load m data.
Proof.
  intros Hok Hbytes Hdec. pose proof (length_load m data Hok) as Hl.
  assert ((28 <= len data <= 1464)%nat
          /\ Uint32 (take 4 (load m data)) = HeaderMagic) as [Hlen Hm].
  { destruct (Nat.lt_ge_cases (len data) 28) as [Hshort|Hlong].
    { unfold UnmarshalBinary, HeaderSize in Hdec.
      rewrite (proj2 (Z.ltb_lt _ _)) in Hdec by lia. discriminate Hdec. }
    destruct (Nat.lt_ge_cases 1464 (len data)) as [Hbig|Hmax].
    { unfold UnmarshalBinary, HeaderSize, MaxVBANPacketSize, HeaderSize,
        MaxPacketDataSize in Hdec.
      rewrite (proj2 (Z.ltb_ge _ _)) in Hdec by lia.
      rewrite Zgtb_true in Hdec by lia. discriminate Hdec. }
    destruct (Z.eq_dec (Uint32 (take 4 (load m data))) HeaderMagic) as [E|E];
      [split; [lia | exact E]|].
    rewrite UnmarshalBinary_bad_magic in Hdec by (assumption || lia).
    discriminate Hdec. }
  rewrite UnmarshalBinary_ok in Hdec by assumption.
  injection Hdec as <- <-.
  set (hdr := fst (Header_UnmarshalBinary Header_zero (take 28 (load m data)))).
  set (payload := drop 28 (load m data)).
  assert (length (take 28 (load m data)) = 28%nat) as Hl28
    by (rewrite length_take; lia).
  assert (snd (Header_UnmarshalBinary Header_zero (take 28 (load m data)))
          = None) as Hsucc.
  { rewrite Header_UnmarshalBinary_good_magic;
      [reflexivity|lia|now rewrite take_take|reflexivity]. }
  assert (Header_MarshalBinary hdr = (take 28 (load m data), None)) as Henc.
  { apply Header_MarshalBinary_UnmarshalBinary;
      [reflexivity|exact Hl28|now apply Forall_take|exact Hsucc]. }
  assert (length (StreamName hdr) = 16%nat) as Hname.
  { subst hdr. rewrite Header_UnmarshalBinary_good_magic;
      [|lia|now rewrite take_take|reflexivity].
    cbn [fst StreamName]. rewrite length_take, length_drop. lia. }
  assert (load (m ++ [payload])
            (mkSlice (length m) 0 (len data - 28) (len data - 28)) = payload)
    as Hpay.
  { apply load_whole; [apply array_app_new|].
    subst payload. rewrite length_drop. lia. }
  eexists _, _. split.
  - apply Packet_MarshalBinary_ok; cbn [Packet_Header Packet_Data len].
    + exact Hname.
    + split; cbn [len cap off arr]; [lia|].
      rewrite array_app_new. subst payload. rewrite length_drop. lia.
    + lia.
  - cbn [Packet_Header Packet_Data len]. rewrite Henc, Hpay. cbn [fst].
    apply load_whole.
    + rewrite array_app_new. subst payload. apply take_drop.
    + rewrite Hl. lia.
Qed.

Lemma X17_packet_decode_encode_witness :
  exists (m2 : heap) (out : slice),
    Packet_MarshalBinary
      (mkPacket sample_header (mkSlice 1 0 0 0))
      ([fst (Header_MarshalBinary sample_header)] ++ [[]])
    = (m2, (out, None)) /\
    load m2 out
    = load [fst (Header_MarshalBinary sample_header)] (mkSlice 0 0 28 28).
Proof.
  apply (X17_packet_decode_encode (mkSlice 0 0 28 28)
           [fst (Header_MarshalBinary sample_header)]).
  - split; vm_compute; lia.
  - vm_compute. repeat (constructor; [solve_range|]). constructor.
  - reflexivity.
Defined.

(** X18. [NewPacket] keeps the caller's slice, as its comment warns: it
    fails only on a payload of more than 1436 bytes, the packet it makes
    holds the very slice it was given, and a byte the caller writes
    through that slice afterwards is seen in the payload of the
    packet. *)
Theorem X18_NewPacket_shares_payload (header : Header) (data : slice)
    (m : heap) (i : nat) (b : Z) :
  slice_ok m data -> (len data <= 1436)%nat -> (i < len data)%nat ->
  exists p : Packet,
    NewPacket header data = (Some p, None) /\
    Packet_Header p = header /\ Packet_Data p = data /\
    load (store m data i b) (Packet_Data p) = <[i := b]> (load m data).
Proof.
  intros Hok Hmax Hi. exists (mkPacket header data). split; [|split; [|split]].
  - unfold NewPacket, MaxPacketDataSize. now rewrite Zgtb_false by lia.
  - reflexivity.
  - reflexivity.
  - cbn [Packet_Data]. destruct Hok as [Hlen Hcap].
    assert (arr data < length m)%nat as Harr.
    { destruct (Nat.lt_ge_cases (arr data) (length m)) as [|Hout];
        [assumption|].
      rewrite array_outside in Hcap by assumption. cbn in Hcap. lia. }
    unfold load, store. rewrite array_poke_same by assumption.
    cbn [length app].
    replace (off data + i + 1)%nat with (S (off data + i)) by lia.
    rewrite <- insert_take_drop by lia.
    rewrite drop_insert_ge by lia.
    replace (off data + i - off data)%nat with i by lia.
    now rewrite take_insert_lt by lia.
Qed.

Lemma X18_NewPacket_shares_payload_witness :
  exists p : Packet,
    NewPacket sample_header (mkSlice 0 1 4 5) = (Some p, None) /\
    Packet_Header p = sample_header /\ Packet_Data p = mkSlice 0 1 4 5 /\
    load (store sample_heap (mkSlice 0 1 4 5) 2 99) (Packet_Data p)
    = <[2%nat := 99]> (load sample_heap (mkSlice 0 1 4 5)).
Proof.
  apply (X18_NewPacket_shares_payload sample_header (mkSlice 0 1 4 5)
           sample_heap 2 99).
  - split; cbn; lia.
  - cbn; lia.
  - cbn; lia.
Defined.

End PacketExtras.

(** ** The open endpoint *)

Section EndpointExtras.
Context `{Net}.
Import Binary BinaryFacts Mem MemFacts MemExtras.

Lemma state_eta (s : state) : mkState (st_conn s) (st_mem s) (st_world s) = s.
Proof. now destruct s. Qed.

Lemma heap_kept_load_any (b : option nat) (m m' : heap) (s : slice) :
  heap_kept b m m' -> slice_ok m s -> b <> Some (arr s) ->
  load m' s = load m s.
Proof.
  intros [L K] Hok Hb.
  destruct (Nat.lt_ge_cases (arr s) (length m)) as [Hin|Hout].
  - unfold load. now rewrite K.
  - unfold load. now rewrite (slice_ok_outside m s Hok Hout).
Qed.

(** [Send] leaves the endpoint as it is and only allocates. *)
Lemma Send_frame (packet : option Packet) (addr : option UDPAddr) (s : state) :
  st_conn (fst (Send packet addr s)) = st_conn s /\
  exists extra : heap, st_mem (fst (Send packet addr s)) = st_mem s ++ extra.
Proof.
  assert (exists extra : heap, st_mem s = st_mem s ++ extra) as Hsame
    by (exists []; now rewrite app_nil_r).
  unfold Send. destruct (udpConn (st_conn s)) as [u|]; [|now split].
  destruct packet as [p|]; [|now split].
  destruct (Packet_MarshalBinary_frame p (st_mem s)) as (extra & Hfr).
  destruct (Packet_MarshalBinary p (st_mem s)) as [m' [bytes err]].
  cbn [fst] in Hfr. subst m'.
  destruct err as [e|]; [cbn [fst st_conn st_mem]; eauto|].
  cbn [st_conn st_mem st_world].
  destruct addr as [a|].
  - unfold Send_check.
    destruct (sock_WriteToUDP u _ a (st_world s)) as [w [n [e|]]];
      [|destruct (negb _)]; cbn [fst st_conn st_mem]; eauto.
  - destruct (sock_RemoteAddr u (st_world s));
      [|cbn [fst st_conn st_mem]; eauto].
    unfold Send_check.
    destruct (sock_Write u _ (st_world s)) as [w [n [e|]]];
      [|destruct (negb _)]; cbn [fst st_conn st_mem]; eauto.
Qed.

(** [Receive] leaves the endpoint as it is, writes into the array of its
    read buffer and allocates. *)
Lemma Receive_frame (s : state) :
  st_conn (fst (Receive s)) = st_conn s /\
  heap_kept (Some (arr (readBuffer (st_conn s))))
            (st_mem s) (st_mem (fst (Receive s))).
Proof.
  unfold Receive. destruct (udpConn (st_conn s)) as [u|];
    [|split; [reflexivity | apply heap_kept_refl]].
  destruct (sock_ReadFromUDP u (st_world s)) as [w [[dgram from] err]].
  unfold copy. set (buf := readBuffer (st_conn s)).
  set (n := (len buf `min` length dgram)%nat).
  pose proof (heap_kept_poke (st_mem s) (arr buf) (off buf) (take n dgram))
    as Hpoke.
  destruct err as [e|].
  { destruct (is_net_ErrClosed e); cbn [fst st_conn st_mem]; now split. }
  destruct (n =? 0)%nat; [cbn [fst st_conn st_mem]; now split|].
  destruct (Z.of_nat n >? MaxVBANPacketSize);
    [cbn [fst st_conn st_mem]; now split|].
  cbn [st_conn].
  destruct (UnmarshalBinary_frame (reslice buf 0 n)
              (poke (st_mem s) (arr buf) (off buf) (take n dgram)))
    as (extra & Hfr).
  destruct (UnmarshalBinary _ _) as [m2 [packet err]]. cbn [fst] in Hfr.
  subst m2.
  assert (heap_kept (Some (arr buf)) (st_mem s)
            (poke (st_mem s) (arr buf) (off buf) (take n dgram) ++ extra))
    as Hall.
  { eapply heap_kept_trans; [exact Hpoke|].
    apply heap_kept_weaken, heap_kept_app. }
  destruct err; cbn [fst st_conn st_mem]; now split.
Qed.

Lemma Close_frame (s : state) :
  readBuffer (st_conn (fst (Close s))) = readBuffer (st_conn s) /\
  st_mem (fst (Close s)) = st_mem s.
Proof.
  unfold Close. destruct (udpConn (st_conn s)) as [u|]; [|now split].
  destruct (sock_Close u (st_world s)) as [w err]. now split.
Qed.

Lemma step_frame (o : op) (s : state) :
  readBuffer (st_conn (fst (step o s))) = readBuffer (st_conn s) /\
  heap_kept (Some (arr (readBuffer (st_conn s))))
            (st_mem s) (st_mem (fst (step o s))) /\
  (o <> OpClose -> st_conn (fst (step o s)) = st_conn s).
Proof.
  destruct o as [|packet addr| | |]; cbn [step].
  - destruct (Close_frame s) as [Hb Hm]. destruct (Close s) as [s' err].
    cbn [fst] in *. rewrite Hm. split; [exact Hb|].
    split; [apply heap_kept_refl | congruence].
  - destruct (Send_frame packet addr s) as [Hc (extra & Hm)].
    destruct (Send packet addr s) as [s' err]. cbn [fst] in *.
    rewrite Hc, Hm. split; [reflexivity|].
    split; [apply heap_kept_weaken, heap_kept_app | reflexivity].
  - destruct (Receive_frame s) as [Hc Hm].
    destruct (Receive s) as [s' r]. cbn [fst] in *.
    rewrite Hc. auto.
  - cbn [fst]. split; [reflexivity|]. split; [apply heap_kept_refl | reflexivity].
  - cbn [fst]. split; [reflexivity|]. split; [apply heap_kept_refl | reflexivity].
Qed.

Lemma run_frame (os : list op) (s : state) :
  readBuffer (st_conn (fst (run os s))) = readBuffer (st_conn s) /\
  heap_kept (Some (arr (readBuffer (st_conn s))))
            (st_mem s) (st_mem (fst (run os s))) /\
  (Forall (fun o => o <> OpClose) os -> st_conn (fst (run os s)) = st_conn s).
Proof.
  revert s. induction os as [|o os IH]; intros s.
  - cbn [run fst]. split; [reflexivity|].
    split; [apply heap_kept_refl | reflexivity].
  - cbn [run]. destruct (step_frame o s) as (Hb & Hm & Hc).
    destruct (step o s) as [s1 r1]. cbn [fst] in Hb, Hm, Hc.
    destruct (IH s1) as (Hb' & Hm' & Hc').
    destruct (run os s1) as [s2 rs]. cbn [fst] in *.
    rewrite Hb in Hm'. split; [congruence|]. split.
    + eapply heap_kept_trans; eassumption.
    + intros Hall. inversion Hall; subst.
      rewrite Hc' by assumption. now apply Hc.
Qed.

(** What [copy] into the read buffer leaves there. *)
Lemma load_after_copy (m : heap) (buf : slice) (dgram : list Z) :
  slice_ok m buf -> (arr buf < length m)%nat ->
  let n := (len buf `min` length dgram)%nat in
  let m1 := fst (copy m buf dgram) in
  load m1 (reslice buf 0 n) = take n dgram /\
  slice_ok m1 (reslice buf 0 n) /\ slice_ok m1 buf /\
  length m1 = length m.
Proof.
  intros [Hlen Hcap] Harr n m1. subst m1. unfold copy. cbn [fst]. fold n.
  assert (length (take n dgram) = n) as Hn by (rewrite length_take; lia).
  assert (length (array (poke m (arr buf) (off buf) (take n dgram)) (arr buf))
          = length (array m (arr buf))) as Hsame.
  { rewrite array_poke_same by assumption.
    rewrite !length_app, length_take, length_drop, Hn. lia. }
  split; [|split; [|split]].
  - unfold load, reslice. cbn [arr off len].
    rewrite array_poke_same by assumption.
    rewrite Nat.add_0_r, Nat.sub_0_r.
    rewrite drop_app_length' by (rewrite length_take; lia).
    now rewrite take_app_length' by (symmetry; exact Hn).
  - split; cbn [reslice len cap off arr]; [lia|]. rewrite Hsame. lia.
  - split; [assumption|]. rewrite Hsame. assumption.
  - apply length_poke.
Qed.

(** [Receive] on a datagram of 1 to 1464 bytes hands exactly the bytes of
    the datagram to [UnmarshalBinary]. *)
Lemma Receive_datagram (u : UDPConn) (s : state) (w' : World)
    (dgram : list Z) (from : option UDPAddr) :
  udpConn (st_conn s) = Some u -> buffer_ok s ->
  sock_ReadFromUDP u (st_world s) = (w', (dgram, from, None)) ->
  (1 <= length dgram <= 1464)%nat ->
  let buf := readBuffer (st_conn s) in
  let m1 := fst (copy (st_mem s) buf dgram) in
  let view := reslice buf 0 (length dgram) in
  load m1 view = dgram /\ slice_ok m1 view /\ len view = length dgram /\
  Receive s
  = (mkState (st_conn s) (fst (UnmarshalBinary view m1)) w',
     match snd (snd (UnmarshalBinary view m1)) with
     | Some e => (None, from, Some (ErrUnmarshalReceived e))
     | None => (fst (snd (UnmarshalBinary view m1)), from, None)
     end).
Proof.
  intros Hu (Hok & Hlen & Harr) Hread Hd buf m1 view.
  destruct (load_after_copy (st_mem s) buf dgram Hok Harr)
    as (Hload & Hok1 & _ & _).
  fold buf in Hlen. rewrite Hlen in Hload, Hok1.
  rewrite Nat.min_r in Hload, Hok1 by lia.
  rewrite take_ge in Hload by lia. fold m1 view in Hload, Hok1.
  split; [exact Hload|]. split; [exact Hok1|].
  split; [cbn [view reslice len]; lia|].
  unfold Receive. rewrite Hu, Hread. fold buf.
  unfold m1, view. unfold copy at 1. rewrite Hlen.
  rewrite Nat.min_r by lia.
  rewrite (proj2 (Nat.eqb_neq _ 0)) by lia.
  unfold MaxVBANPacketSize, HeaderSize, MaxPacketDataSize.
  rewrite Zgtb_false by lia. cbn [st_conn].
  unfold copy. cbn [fst]. rewrite Hlen, Nat.min_r by lia.
  destruct (UnmarshalBinary _ _) as [m2 [packet [e|]]]; reflexivity.
Qed.

(** X19. [Send] checks before it writes: on an open endpoint a [nil]
    packet is refused, and so is a packet whose payload exceeds 1436
    bytes, in both cases with the state, the network included, left
    exactly as it was; and without an address, on a socket that has no
    remote address, nothing is written to the network either. *)
Theorem X19_Send_checks_before_writing (u : UDPConn) (s : state)
    (addr : option UDPAddr) (p : Packet) :
  udpConn (st_conn s) = Some u ->
  wf_Header (Packet_Header p) -> slice_ok (st_mem s) (Packet_Data p) ->
  Send None addr s = (s, Some ErrNilPacket) /\
  ((1436 < len (Packet_Data p))%nat ->
   Send (Some p) addr s
   = (s, Some (ErrMarshalForSend
                 (ErrDataSize (Z.of_nat (len (Packet_Data p))) 1436)))) /\
  ((len (Packet_Data p) <= 1436)%nat ->
   sock_RemoteAddr u (st_world s) = None ->
   snd (Send (Some p) None s) = Some ErrNoDestination /\
   st_world (fst (Send (Some p) None s)) = st_world s).
Proof.
  intros Hu Hwf Hok. pose proof (wf_StreamName_len _ Hwf) as Hname.
  change (Z.to_nat MaxStreamNameLen) with 16%nat in Hname.
  split; [|split].
  - unfold Send. now rewrite Hu.
  - intros Hbig. unfold Send. rewrite Hu.
    unfold Packet_MarshalBinary.
    rewrite Header_MarshalBinary_ok by assumption.
    unfold MaxPacketDataSize. rewrite Zgtb_true by lia.
    now rewrite state_eta.
  - intros Hmax Hremote. unfold Send. rewrite Hu.
    rewrite Packet_MarshalBinary_ok by assumption.
    cbn [st_conn st_mem st_world]. rewrite Hremote. now split.
Qed.

(** X20. What [Send] writes: for a well-formed packet with a payload of
    at most 1436 bytes, an open endpoint makes one write to its socket,
    of the 28 header bytes followed by the payload bytes (at most 1464
    bytes in all), to the address given, or without one to the remote
    address of the socket if it has one. [Send] succeeds exactly when the
    socket reports no error and a count equal to that length; the
    endpoint is unchanged. *)
Theorem X20_Send_writes_marshalled_packet (u : UDPConn) (s : state)
    (p : Packet) :
  udpConn (st_conn s) = Some u ->
  wf_Header (Packet_Header p) -> slice_ok (st_mem s) (Packet_Data p) ->
  (len (Packet_Data p) <= 1436)%nat ->
  let bytes := fst (Header_MarshalBinary (Packet_Header p))
                 ++ load (st_mem s) (Packet_Data p) in
  let outcome (r : World * (Z * option error)) : state * option error :=
    (mkState (st_conn s) (st_mem s ++ [bytes]) (fst r),
     match snd (snd r) with
     | Some e => Some (ErrUDPWrite e)
     | None =>
         if fst (snd r) =? Z.of_nat (length bytes) then None
         else Some (ErrIncompleteWrite (fst (snd r)) (Z.of_nat (length bytes)))
     end) in
  length bytes = (28 + len (Packet_Data p))%nat /\
  (forall a : UDPAddr,
     Send (Some p) (Some a) s = outcome (sock_WriteToUDP u bytes a (st_world s)))
  /\
  (forall a : UDPAddr,
     sock_RemoteAddr u (st_world s) = Some a ->
     Send (Some p) None s = outcome (sock_Write u bytes (st_world s))).
Proof.
  intros Hu Hwf Hok Hmax bytes outcome.
  pose proof (wf_StreamName_len _ Hwf) as Hname.
  change (Z.to_nat MaxStreamNameLen) with 16%nat in Hname.
  assert (length bytes = (28 + len (Packet_Data p))%nat) as Hlen.
  { subst bytes. rewrite length_app, length_Header_MarshalBinary, length_load
      by assumption. reflexivity. }
  assert (load (st_mem s ++ [bytes])
            (mkSlice (length (st_mem s)) 0 (28 + len (Packet_Data p))
                     (28 + len (Packet_Data p))) = bytes) as Hout.
  { apply load_whole; [apply array_app_new | now rewrite Hlen]. }
  split; [exact Hlen|]. split.
  - intros a. unfold Send. rewrite Hu.
    rewrite Packet_MarshalBinary_ok by assumption. fold bytes.
    cbn [st_conn st_mem st_world]. rewrite Hout.
    unfold Send_check, outcome. cbn [len st_conn st_mem]. rewrite Hlen.
    destruct (sock_WriteToUDP u bytes a (st_world s)) as [w [n [e|]]];
      cbn [fst snd]; [reflexivity|].
    destruct (n =? Z.of_nat (28 + len (Packet_Data p))); reflexivity.
  - intros a Hremote. unfold Send. rewrite Hu.
    rewrite Packet_MarshalBinary_ok by assumption. fold bytes.
    cbn [st_conn st_mem st_world]. rewrite Hremote, Hout.
    unfold Send_check, outcome. cbn [len st_conn st_mem]. rewrite Hlen.
    destruct (sock_Write u bytes (st_world s)) as [w [n [e|]]];
      cbn [fst snd]; [reflexivity|].
    destruct (n =? Z.of_nat (28 + len (Packet_Data p))); reflexivity.
Qed.

(** X21. No method of an endpoint changes bytes of its caller: after
    any sequence of [Close], [Send], [Receive], [LocalAddr] and
    [RemoteAddr] calls, in any state and whatever the network does, every
    slice that was in bounds before and does not lie in the array of the
    read buffer shows the bytes it showed; the endpoint still has the
    same read buffer, and if no [Close] was among the calls it is the very
    same endpoint. *)
Theorem X21_endpoint_keeps_callers_bytes (os : list op) (s : state) :
  readBuffer (st_conn (fst (run os s))) = readBuffer (st_conn s) /\
  (forall v : slice,
     slice_ok (st_mem s) v -> arr v <> arr (readBuffer (st_conn s)) ->
     load (st_mem (fst (run os s))) v = load (st_mem s) v) /\
  (Forall (fun o => o <> OpClose) os -> st_conn (fst (run os s)) = st_conn s).
Proof.
  destruct (run_frame os s) as (Hb & Hm & Hc).
  split; [exact Hb|]. split; [|exact Hc].
  intros v Hv Hne. eapply heap_kept_load_any; [exact Hm | exact Hv | congruence].
Qed.

(** X22. What [Receive] refuses on an open endpoint, given what the
    socket read: a socket error is passed on without a sender address,
    told apart as closed-during-read or read error; an empty datagram, a
    datagram that fills the 1465-byte buffer (reported as 1465 bytes,
    whatever its size), one shorter than 28 bytes, and one of 28 to 1464
    bytes without the magic are each refused with their own error, and
    the sender's address is returned with it. The network is left as the
    socket left it. *)
Theorem X22_Receive_refusals (u : UDPConn) (s : state) (w' : World)
    (dgram : list Z) (from : option UDPAddr) (err : option error) :
  udpConn (st_conn s) = Some u -> buffer_ok s ->
  sock_ReadFromUDP u (st_world s) = (w', (dgram, from, err)) ->
  st_world (fst (Receive s)) = w' /\
  (forall e : error,
     err = Some e ->
     snd (Receive s)
     = (None, None,
        Some (if is_net_ErrClosed e then ErrClosedDuringRead e
              else ErrUDPRead e))) /\
  (err = None ->
   (dgram = [] -> snd (Receive s) = (None, from, Some ErrEmptyDatagram)) /\
   ((1465 <= length dgram)%nat ->
    snd (Receive s) = (None, from, Some (ErrOversized 1465 1464))) /\
   ((1 <= length dgram < 28)%nat ->
    snd (Receive s)
    = (None, from,
       Some (ErrUnmarshalReceived
               (ErrInsufficientPacket (Z.of_nat (length dgram)) 28)))) /\
   ((28 <= length dgram <= 1464)%nat ->
    Uint32 (take 4 dgram) <> HeaderMagic ->
    snd (Receive s)
    = (None, from,
       Some (ErrUnmarshalReceived
               (ErrUnmarshalHeader
                  (ErrInvalidMagic HeaderMagic (Uint32 (take 4 dgram)))))))).
Proof.
  intros Hu Hbuf Hread. pose proof Hbuf as (Hok & Hlen & Harr).
  split; [|split].
  - unfold Receive. rewrite Hu, Hread.
    destruct (copy _ _ _) as [m1 n].
    destruct err as [e|]; [destruct (is_net_ErrClosed e); reflexivity|].
    destruct (n =? 0)%nat; [reflexivity|].
    destruct (Z.of_nat n >? MaxVBANPacketSize); [reflexivity|].
    destruct (UnmarshalBinary _ _) as [m2 [packet [e|]]]; reflexivity.
  - intros e ->. unfold Receive. rewrite Hu, Hread.
    destruct (copy _ _ _) as [m1 n].
    destruct (is_net_ErrClosed e); reflexivity.
  - intros ->. split; [|split; [|split]].
    + intros ->. unfold Receive. rewrite Hu, Hread. unfold copy.
      cbn [length]. rewrite Nat.min_0_r. reflexivity.
    + intros Hbig. unfold Receive. rewrite Hu, Hread. unfold copy.
      rewrite Hlen, Nat.min_l by lia.
      change (1465 =? 0)%nat with false.
      unfold MaxVBANPacketSize, HeaderSize, MaxPacketDataSize.
      rewrite Zgtb_true by lia. reflexivity.
    + intros Hshort.
      destruct (Receive_datagram u s w' dgram from Hu Hbuf Hread ltac:(lia))
        as (Hload & Hok1 & Hl & ->).
      cbn [snd]. unfold UnmarshalBinary at 1 2, HeaderSize.
      rewrite Hl. rewrite (proj2 (Z.ltb_lt _ _)) by lia. reflexivity.
    + intros Hmid Hmagic.
      destruct (Receive_datagram u s w' dgram from Hu Hbuf Hread ltac:(lia))
        as (Hload & Hok1 & Hl & ->).
      cbn [snd]. rewrite UnmarshalBinary_bad_magic
        by (rewrite ?Hl, ?Hload; assumption || lia).
      cbn [fst snd]. now rewrite Hload.
Qed.

(** X23. What [Receive] accepts, and that the buffer can be reused: when
    the socket reads a datagram of 28 to 1464 bytes that starts with the
    magic, [Receive] returns the sender's address and a packet whose
    header is the one decoded from the first 28 bytes and whose payload
    shows the remaining bytes. The payload lies outside the array of the
    read buffer, and it still shows those bytes after any further
    sequence of calls on the endpoint, later receptions included. *)
Theorem X23_Receive_accepts (u : UDPConn) (s : state) (w' : World)
    (dgram : list Z) (from : option UDPAddr) :
  udpConn (st_conn s) = Some u -> buffer_ok s ->
  sock_ReadFromUDP u (st_world s) = (w', (dgram, from, None)) ->
  (28 <= length dgram <= 1464)%nat ->
  Uint32 (take 4 dgram) = HeaderMagic ->
  exists (s' : state) (q : Packet),
    Receive s = (s', (Some q, from, None)) /\
    Packet_Header q
    = fst (Header_UnmarshalBinary Header_zero (take 28 dgram)) /\
    load (st_mem s') (Packet_Data q) = drop 28 dgram /\
    arr (Packet_Data q) <> arr (readBuffer (st_conn s')) /\
    st_conn s' = st_conn s /\ st_world s' = w' /\
    forall os : list op,
      load (st_mem (fst (run os s'))) (Packet_Data q) = drop 28 dgram.
Proof.
  intros Hu Hbuf Hread Hlen Hmagic. pose proof Hbuf as (Hok & Hbl & Harr).
  destruct (Receive_datagram u s w' dgram from Hu Hbuf Hread ltac:(lia))
    as (Hload & Hok1 & Hl & HR).
  destruct (load_after_copy (st_mem s) (readBuffer (st_conn s)) dgram Hok Harr)
    as (_ & _ & _ & Hlm).
  set (m1 := fst (copy (st_mem s) (readBuffer (st_conn s)) dgram)) in *.
  set (view := reslice (readBuffer (st_conn s)) 0 (length dgram)) in *.
  rewrite UnmarshalBinary_ok in HR
    by (rewrite ?Hl, ?Hload; assumption || lia).
  cbn [fst snd] in HR. rewrite Hload, Hl in HR.
  set (q := mkPacket
              (fst (Header_UnmarshalBinary Header_zero (take 28 dgram)))
              (mkSlice (length m1) 0 (length dgram - 28) (length dgram - 28)))
    in *.
  set (s' := mkState (st_conn s) (m1 ++ [drop 28 dgram]) w') in *.
  assert (load (st_mem s') (Packet_Data q) = drop 28 dgram) as Hpay.
  { apply load_whole; [apply array_app_new|]. rewrite length_drop. lia. }
  exists s', q. split; [exact HR|]. split; [reflexivity|].
  split; [exact Hpay|].
  assert (arr (Packet_Data q) <> arr (readBuffer (st_conn s'))) as Hne
    by (cbn [q s' Packet_Data st_conn arr]; lia).
  split; [exact Hne|]. split; [reflexivity|]. split; [reflexivity|].
  intros os. destruct (run_frame os s') as (_ & Hm & _).
  rewrite <- Hpay.
  eapply heap_kept_load_any; [exact Hm | | congruence].
  split; cbn [q s' Packet_Data st_mem len cap off arr]; [lia|].
  rewrite array_app_new, length_drop. lia.
Qed.

(** X24. The read buffer of an endpoint: [NewConn] gives [nil] for a
    [nil] socket and otherwise an open endpoint whose read buffer is a
    new array of 1465 zero bytes, leaving the arrays of before alone;
    and whatever calls follow and whatever the network does, the read
    buffer stays a 1465-byte window within its array. *)
Theorem X24_read_buffer_invariant (u : UDPConn) (m : heap) (w : World)
    (os : list op) (s : state) :
  NewConn None m = (m, None) /\
  (exists (m' : heap) (c : Conn),
     NewConn (Some u) m = (m', Some c) /\ udpConn c = Some u /\
     buffer_ok (mkState c m' w) /\
     load m' (readBuffer c) = replicate 1465 0 /\
     (length m <= arr (readBuffer c))%nat /\
     (forall v : slice, slice_ok m v -> load m' v = load m v)) /\
  (buffer_ok s -> buffer_ok (fst (run os s))).
Proof.
  split; [reflexivity|]. split.
  - unfold NewConn, make.
    change (Z.to_nat (MaxVBANPacketSize + 1)) with 1465%nat.
    eexists _, _. split; [reflexivity|]. cbn [udpConn readBuffer].
    split; [reflexivity|]. split; [|split; [|split]].
    + unfold buffer_ok. cbn [st_conn st_mem readBuffer len arr].
      split; [|split; [reflexivity|rewrite length_app; cbn [length]; lia]].
      split; cbn [len cap off arr]; [lia|].
      rewrite array_app_new, length_replicate. lia.
    + apply load_whole; [apply array_app_new | now rewrite length_replicate].
    + cbn [arr]. lia.
    + intros v Hv. now apply load_app.
  - revert s. induction os as [|o os IH]; intros s Hs; [exact Hs|].
    cbn [run]. destruct (step o s) as [s1 r1] eqn:Es.
    assert (buffer_ok s1) as Hs1.
    { pose proof Hs as (Hok & Hlen & Harr).
      assert (s1 = fst (step o s)) as -> by now rewrite Es.
      clear Es. destruct o as [|packet addr| | |]; cbn [step].
      - destruct (Close_frame s) as [Hb Hm]. destruct (Close s) as [s' e].
        cbn [fst] in *. unfold buffer_ok. now rewrite Hb, Hm.
      - destruct (Send_frame packet addr s) as [Hc (extra & Hm)].
        destruct (Send packet addr s) as [s' e]. cbn [fst] in *.
        unfold buffer_ok. rewrite Hc, Hm.
        split; [|split; [assumption|rewrite length_app; lia]].
        destruct Hok as [H1 H2]. split; [assumption|].
        unfold array. rewrite lookup_app_l by assumption. exact H2.
      - destruct (Receive_frame s) as [Hc _].
        assert (exists extra,
                  st_mem (fst (Receive s))
                  = fst (copy (st_mem s) (readBuffer (st_conn s))
                           (fst (fst (snd (sock_ReadFromUDP
                              (default u (udpConn (st_conn s))) (st_world s))))))
                      ++ extra
                  \/ st_mem (fst (Receive s)) = st_mem s ++ extra) as (extra & Hm).
        { unfold Receive. destruct (udpConn (st_conn s)) as [u0|];
            [|exists []; right; now rewrite app_nil_r].
          cbn [default from_option id].
          destruct (sock_ReadFromUDP u0 (st_world s)) as [w0 [[dgram from] err]].
          cbn [fst snd].
          destruct (copy (st_mem s) (readBuffer (st_conn s)) dgram)
            as [m1 n] eqn:Ec. cbn [fst].
          destruct err as [e|].
          { exists []. left. destruct (is_net_ErrClosed e);
              cbn [fst st_mem]; now rewrite app_nil_r. }
          destruct (n =? 0)%nat;
            [exists []; left; cbn [fst st_mem]; now rewrite app_nil_r|].
          destruct (Z.of_nat n >? MaxVBANPacketSize);
            [exists []; left; cbn [fst st_mem]; now rewrite app_nil_r|].
          destruct (UnmarshalBinary_frame
                      (reslice (readBuffer (st_conn s)) 0 n) m1)
            as (extra & Hfr).
          destruct (UnmarshalBinary _ _) as [m2 [packet err]].
          cbn [fst] in Hfr. subst m2. exists extra. left.
          destruct err; reflexivity. }
        destruct (Receive s) as [s' r]. cbn [fst] in *.
        unfold buffer_ok. rewrite Hc.
        destruct Hm as [Hm|Hm]; rewrite Hm.
        + destruct (load_after_copy (st_mem s) (readBuffer (st_conn s))
                      (fst (fst (snd (sock_ReadFromUDP
                         (default u (udpConn (st_conn s))) (st_world s)))))
                      Hok Harr) as (_ & _ & [H1 H2] & Hl).
          split; [|split; [assumption|rewrite length_app; lia]].
          split; [assumption|].
          unfold array in *. rewrite lookup_app_l by lia. exact H2.
        + split; [|split; [assumption|rewrite length_app; lia]].
          destruct Hok as [H1 H2]. split; [assumption|].
          unfold array. rewrite lookup_app_l by assumption. exact H2.
      - exact Hs.
      - exact Hs. }
    specialize (IH s1 Hs1). destruct (run os s1) as [s2 rs]. exact IH.
Qed.

End EndpointExtras.

(** ** The endpoint extras on the sample socket layer *)

Section EndpointWitnesses.
Import Binary Mem.

Ltac solve_buffer_ok :=
  split; [split; vm_compute; lia | split; [reflexivity | vm_compute; lia]].

Lemma X19_Send_checks_before_writing_witness :
  @Send loopback None (Some DefaultPort) sample_state
  = (sample_state, Some ErrNilPacket) /\
  ((1436 < len (Packet_Data sample_packet))%nat ->
   @Send loopback (Some sample_packet) (Some DefaultPort) sample_state
   = (sample_state,
      Some (ErrMarshalForSend
              (ErrDataSize (Z.of_nat (len (Packet_Data sample_packet))) 1436))))
  /\
  ((len (Packet_Data sample_packet) <= 1436)%nat ->
   @sock_RemoteAddr loopback tt (@st_world loopback sample_state) = None ->
   snd (@Send loopback (Some sample_packet) None sample_state)
   = Some ErrNoDestination /\
   @st_world loopback (fst (@Send loopback (Some sample_packet) None sample_state))
   = @st_world loopback sample_state).
Proof.
  apply (@X19_Send_checks_before_writing loopback tt sample_state
           (Some DefaultPort) sample_packet).
  - reflexivity.
  - solve_wf_Header.
  - split; vm_compute; lia.
Defined.

Lemma X20_Send_writes_marshalled_packet_witness :
  let bytes := fst (Header_MarshalBinary (Packet_Header sample_packet))
                 ++ load (@st_mem loopback sample_state)
                      (Packet_Data sample_packet) in
  let outcome (r : @World loopback * (Z * option error))
      : @state loopback * option error :=
    (@mkState loopback (@st_conn loopback sample_state)
              (@st_mem loopback sample_state ++ [bytes]) (fst r),
     match snd (snd r) with
     | Some e => Some (ErrUDPWrite e)
     | None =>
         if fst (snd r) =? Z.of_nat (length bytes) then None
         else Some (ErrIncompleteWrite (fst (snd r)) (Z.of_nat (length bytes)))
     end) in
  length bytes = (28 + len (Packet_Data sample_packet))%nat /\
  (forall a : @UDPAddr loopback,
     @Send loopback (Some sample_packet) (Some a) sample_state
     = outcome (@sock_WriteToUDP loopback tt bytes a
                  (@st_world loopback sample_state)))
  /\
  (forall a : @UDPAddr loopback,
     @sock_RemoteAddr loopback tt (@st_world loopback sample_state) = Some a ->
     @Send loopback (Some sample_packet) None sample_state
     = outcome (@sock_Write loopback tt bytes (@st_world loopback sample_state))).
Proof.
  apply (@X20_Send_writes_marshalled_packet loopback tt sample_state
           sample_packet).
  - reflexivity.
  - solve_wf_Header.
  - split; vm_compute; lia.
  - vm_compute; lia.
Defined.

Lemma X22_Receive_refusals_witness :
  @st_world loopback (fst (@Receive loopback (sample_state_with [[1; 2; 3]])))
  = [] /\
  (forall e : error,
     None = Some e ->
     snd (@Receive loopback (sample_state_with [[1; 2; 3]]))
     = (None, None,
        Some (if is_net_ErrClosed e then ErrClosedDuringRead e
              else ErrUDPRead e))) /\
  (@None error = None ->
   ([1; 2; 3] = [] ->
    snd (@Receive loopback (sample_state_with [[1; 2; 3]]))
    = (None, Some DefaultPort, Some ErrEmptyDatagram)) /\
   ((1465 <= length [1; 2; 3])%nat ->
    snd (@Receive loopback (sample_state_with [[1; 2; 3]]))
    = (None, Some DefaultPort, Some (ErrOversized 1465 1464))) /\
   ((1 <= length [1; 2; 3] < 28)%nat ->
    snd (@Receive loopback (sample_state_with [[1; 2; 3]]))
    = (None, Some DefaultPort,
       Some (ErrUnmarshalReceived
               (ErrInsufficientPacket (Z.of_nat (length [1; 2; 3])) 28)))) /\
   ((28 <= length [1; 2; 3] <= 1464)%nat ->
    Uint32 (take 4 [1; 2; 3]) <> HeaderMagic ->
    snd (@Receive loopback (sample_state_with [[1; 2; 3]]))
    = (None, Some DefaultPort,
       Some (ErrUnmarshalReceived
               (ErrUnmarshalHeader
                  (ErrInvalidMagic HeaderMagic (Uint32 (take 4 [1; 2; 3])))))))).
Proof.
  apply (@X22_Receive_refusals loopback tt (sample_state_with [[1; 2; 3]]) []
           [1; 2; 3] (Some DefaultPort) None).
  - reflexivity.
  - solve_buffer_ok.
  - reflexivity.
Defined.

Lemma X23_Receive_accepts_witness :
  exists (s' : @state loopback) (q : Packet),
    @Receive loopback
      (sample_state_with [fst (Header_MarshalBinary sample_header) ++ [1; 2]])
    = (s', (Some q, Some DefaultPort, None)) /\
    Packet_Header q
    = fst (Header_UnmarshalBinary Header_zero
             (take 28 (fst (Header_MarshalBinary sample_header) ++ [1; 2]))) /\
    load (@st_mem loopback s') (Packet_Data q)
    = drop 28 (fst (Header_MarshalBinary sample_header) ++ [1; 2]) /\
    arr (Packet_Data q) <> arr (@readBuffer loopback (@st_conn loopback s')) /\
    @st_conn loopback s'
    = @st_conn loopback
        (sample_state_with
           [fst (Header_MarshalBinary sample_header) ++ [1; 2]]) /\
    @st_world loopback s' = [] /\
    forall os : list (@op loopback),
      load (@st_mem loopback (fst (@run loopback os s'))) (Packet_Data q)
      = drop 28 (fst (Header_MarshalBinary sample_header) ++ [1; 2]).
Proof.
  apply (@X23_Receive_accepts loopback tt
           (sample_state_with
              [fst (Header_MarshalBinary sample_header) ++ [1; 2]])
           [] (fst (Header_MarshalBinary sample_header) ++ [1; 2])
           (Some DefaultPort)).
  - reflexivity.
  - solve_buffer_ok.
  - reflexivity.
  - vm_compute; lia.
  - reflexivity.
Defined.

End EndpointWitnesses.

(** ** The example sender's rate lookup *)

Section ToolExtras.

(** The entries of the audio table, whatever the order of the visit. *)
Lemma SRList_entry (k v : Z) :
  SRList !! k = Some v ->
  (k, v) ∈ [ (0, 6000); (1, 12000); (2, 24000); (3, 48000); (4, 96000);
             (5, 192000); (6, 384000); (7, 8000); (8, 16000); (9, 32000);
             (10, 64000); (11, 128000); (12, 256000); (13, 512000);
             (14, 11025); (15, 22050); (16, 44100); (17, 88200);
             (18, 176400); (19, 352800); (20, 705600) ].
Proof. intros Hk. unfold SRList in Hk. now apply elem_of_list_to_map_2 in Hk. Qed.

Ltac entry_cases H :=
  repeat (apply elem_of_cons in H as [H|H];
          [apply pair_equal_spec in H as [-> ->]|]);
  [..|apply elem_of_nil in H; contradiction].

(** No two indices of the audio table have the same rate, and every index
    is below 32. *)
Lemma SRList_injective (k k' v : Z) :
  SRList !! k = Some v -> SRList !! k' = Some v ->
  k = k' /\ Z.land k SRMask = k.
Proof.
  intros Hk Hk'. apply SRList_entry in Hk. apply SRList_entry in Hk'.
  entry_cases Hk;
    (repeat (apply elem_of_cons in Hk' as [Hk'|Hk'];
             [apply pair_equal_spec in Hk' as [E1 E2];
              first [ discriminate E2 | subst k'; split; reflexivity ]
             |]);
     apply elem_of_nil in Hk'; contradiction).
Qed.

(** The loop of [findSRIndex] over any list of entries: it stops at an
    entry with the rate, or there is none. *)
Lemma findSRIndex_over_spec (entries : list (Z * Z)) (rate : Z) :
  (exists k, (k, rate) ∈ entries /\
             findSRIndex_over entries rate = (Z.land k SRMask, None))
  \/ ((forall k, (k, rate) ∉ entries) /\
      findSRIndex_over entries rate = (0, Some (ErrUnsupportedRate rate))).
Proof.
  induction entries as [|[i sr] entries IH].
  - right. split; [intros k Hk; now apply elem_of_nil in Hk | reflexivity].
  - cbn [findSRIndex_over]. destruct (Z.eqb_spec sr rate) as [->|Hne].
    + left. exists i. split; [apply elem_of_cons; now left | reflexivity].
    + destruct IH as [(k & Hk & E)|(Hnone & E)].
      * left. exists k. split; [apply elem_of_cons; now right | exact E].
      * right. split; [|exact E]. intros k Hk.
        apply elem_of_cons in Hk as [Hk|Hk]; [|now apply (Hnone k)].
        apply pair_equal_spec in Hk as [_ Hk]. congruence.
Qed.

Lemma findSRIndex_over_table (entries : list (Z * Z)) (rate k : Z) :
  visit_of SRList entries -> SRList !! k = Some rate ->
  findSRIndex_over entries rate = (k, None).
Proof.
  unfold visit_of. intros Hvisit Hk.
  destruct (findSRIndex_over_spec entries rate) as [(k' & Hk' & E)|(Hnone & _)].
  - rewrite Hvisit in Hk'. apply elem_of_map_to_list in Hk'.
    destruct (SRList_injective k' k rate Hk' Hk) as [-> Hmask].
    now rewrite E, Hmask.
  - exfalso. apply (Hnone k). rewrite Hvisit. now apply elem_of_map_to_list.
Qed.

(** X25. The example sender's [findSRIndex], for every order in which
    the [range] may visit the table: a rate that is in the audio table is
    found, with the one index that has it; a rate that is not is refused
    with index 0; whatever index is returned without error has that rate
    under [GetRate]; and looking up the Audio rate of any defined index
    gives that index back. *)
Theorem X25_findSRIndex (entries : list (Z * Z)) (rate : Z) :
  visit_of SRList entries ->
  (forall k, SRList !! k = Some rate ->
             findSRIndex_over entries rate = (k, None)) /\
  ((forall k, SRList !! k <> Some rate) ->
   findSRIndex_over entries rate = (0, Some (ErrUnsupportedRate rate))) /\
  (forall k, findSRIndex_over entries rate = (k, None) ->
             SRList !! k = Some rate /\ GetRate k ProtocolAudio = rate) /\
  (forall i, Z.land i SRMask <= 20 ->
             findSRIndex_over entries (GetRate i ProtocolAudio)
             = (Z.land i SRMask, None)).
Proof.
  intros Hvisit. split; [|split; [|split]].
  - intros k Hk. now apply findSRIndex_over_table.
  - intros Hnone.
    destruct (findSRIndex_over_spec entries rate) as [(k & Hk & _)|(_ & E)];
      [|exact E].
    exfalso. apply (Hnone k). unfold visit_of in Hvisit. rewrite Hvisit in Hk.
    now apply elem_of_map_to_list in Hk.
  - intros k Hfound.
    destruct (findSRIndex_over_spec entries rate) as [(k' & Hk' & E)|(_ & E)];
      [|rewrite E in Hfound; discriminate Hfound].
    unfold visit_of in Hvisit. rewrite Hvisit in Hk'.
    apply elem_of_map_to_list in Hk'.
    destruct (SRList_injective k' k' rate Hk' Hk') as [_ Hmask].
    rewrite E, Hmask in Hfound. injection Hfound as <-.
    split; [exact Hk'|]. unfold GetRate. rewrite Hmask.
    change (IsAudio ProtocolAudio) with true. cbv iota. now rewrite Hk'.
  - intros i Hi. pose proof (masked_index_range i) as Hr.
    destruct (proj2 (SRList_defined (Z.land i SRMask) Hr) Hi) as [r Hrate].
    assert (GetRate i ProtocolAudio = r) as ->.
    { unfold GetRate. change (IsAudio ProtocolAudio) with true. cbv iota.
      now rewrite Hrate. }
    now apply findSRIndex_over_table.
Qed.

Lemma X25_findSRIndex_witness :
  (forall k, SRList !! k = Some 48000 ->
             findSRIndex_over (map_to_list SRList) 48000 = (k, None)) /\
  ((forall k, SRList !! k <> Some 48000) ->
   findSRIndex_over (map_to_list SRList) 48000
   = (0, Some (ErrUnsupportedRate 48000))) /\
  (forall k, findSRIndex_over (map_to_list SRList) 48000 = (k, None) ->
             SRList !! k = Some 48000 /\ GetRate k ProtocolAudio = 48000) /\
  (forall i, Z.land i SRMask <= 20 ->
             findSRIndex_over (map_to_list SRList) (GetRate i ProtocolAudio)
             = (Z.land i SRMask, None)).
Proof.
  apply (X25_findSRIndex (map_to_list SRList) 48000).
  unfold visit_of. reflexivity.
Defined.

End ToolExtras.
